(** * FlagPerf: the RetinaNet trainer and the GPT-3 13B configuration

    A shallow embedding of

      - [training/benchmarks/retinanet/pytorch/train/trainer.py]
        (class [Trainer]: [init], [train_one_epoch], [evaluate]), and
      - [training/nvidia/gpt3_13B-paddle/config/config_TP1PP1SH2SP8A10080Gx1x8.py]

    The trainer is orchestration code around a deep-learning framework.  The
    framework is opaque to the repository, so every call into it is an
    operation [Op] answered by an arbitrary handler over a hidden [World];
    each call may return a value or raise.  The methods of [Trainer] are
    written in a small state-and-error monad [M] whose state holds the
    trainer object, the shared training-state object, the framework's world
    and the trace of observable events (calls, prints, raises, exits).

    Python data is kept as the code has it: [int] is [Z], the loss value and
    the mAP are IEEE binary64 ([PrimFloat.float], with NaN and infinities),
    dictionaries whose order the code never inspects are association lists.
    Wall-clock readings and the two timing accumulators are exact rationals
    [Q]: every finite double is one, and rounding of the two additions is
    abstracted. *)

From Stdlib Require Import ZArith List String Bool Lia QArith Lqa.
From Stdlib Require Import RelationClasses.
From Stdlib Require Import Floats.PrimFloat.
Import ListNotations.

#[local] Set Warnings "-inexact-float".

Local Open Scope string_scope.
Local Open Scope Z_scope.
Local Open Scope list_scope.

(* ================================================================== *)
(** * The GPT-3 13B configuration file *)
(* ================================================================== *)

(** The file is a flat list of module-level assignments; each becomes a
    constant of the same name. *)
Module Gpt3Config.

(* model info *)
Definition model_name_or_path : string := "gpt3-13B-en".
Definition tokenizer_name_or_path : string := "gpt3-13B-en".
Definition continue_training : Z := 0.
Definition split : string := "998,1,1".
Definition max_seq_length : Z := 2048.

(* training info *)
Definition dataloader_num_workers : Z := 1.
Definition max_steps : Z := 100.
Definition save_steps : Z := 10000.
Definition eval_steps : Z := 5000000.
Definition learning_rate : float := 1.2e-4%float.
Definition min_learning_rate : float := 1.2e-5%float.
Definition warmup_steps : Z := 188.
Definition decay_steps : Z := 130 * 1024 * 1024.
Definition lr_scheduler_type : string := "cosine".
Definition adam_beta1 : float := 0.9%float.
Definition adam_beta2 : float := 0.95%float.
Definition adam_epsilon : float := 1e-08%float.
Definition max_grad_norm : float := 1.0%float.
Definition target_loss : float := 1.0%float.
Definition target_ppl : float := 0.6%float.
Definition logging_steps : Z := 1.
Definition log_freq : Z := 1.
Definition seed : Z := 42.

(* for parallel *)
Definition per_device_train_batch_size : Z := 2.
Definition per_device_eval_batch_size : Z := 1.
Definition tensor_parallel_degree : Z := 1.
Definition pipeline_parallel_degree : Z := 1.
Definition sharding_parallel_degree : Z := 8.
Definition gradient_accumulation_steps : Z := 64.
Definition use_flash_attention : Z := 1.
Definition fuse_attention_qkv : Z := 0.
Definition use_fused_rms_norm : Z := 1.
Definition fp16 : bool := true.
Definition fp16_opt_level : string := "O2".
Definition scale_loss : Z := 1024.
Definition sharding : string := "stage2".
Definition recompute : bool := true.
Definition recompute_granularity : string := "full".

End Gpt3Config.

(* ================================================================== *)
(** * Data model of the trainer *)
(* ================================================================== *)

(** The fields of [config] that [trainer.py] reads.  The trainer's
    [device] attribute is a framework object; [config.device] is the
    device name handed to [torch.device]. *)
Record Config := mkConfig {
  device_name : string;
  distributed : bool;
  log_freq : Z;
  target_mAP : float;
  max_epoch : Z
}.

(** Modelled from the spec: the class [TrainingState]
    ([train/training_state.py] is not among the sources).  The record holds
    what the spec's data model lists: epoch count, cumulative sample count,
    timing accumulators, evaluation score, and the two termination flags.
    The field names are the attributes [trainer.py] reads and writes;
    [converged] is the flag behind [converged_success]. *)
Record TrainingState := mkTrainingState {
  epoch : Z;
  num_trained_samples : Z;
  pure_compute_time : Q;
  no_eval_time : Q;
  eval_mAP : float;
  end_training : bool;
  converged : bool
}.

Definition set_epoch (v : Z) (s : TrainingState) :=
  mkTrainingState v (num_trained_samples s) (pure_compute_time s)
                  (no_eval_time s) (eval_mAP s) (end_training s) (converged s).

Definition set_num_trained_samples (v : Z) (s : TrainingState) :=
  mkTrainingState (epoch s) v (pure_compute_time s) (no_eval_time s)
                  (eval_mAP s) (end_training s) (converged s).

Definition set_pure_compute_time (v : Q) (s : TrainingState) :=
  mkTrainingState (epoch s) (num_trained_samples s) v (no_eval_time s)
                  (eval_mAP s) (end_training s) (converged s).

Definition set_no_eval_time (v : Q) (s : TrainingState) :=
  mkTrainingState (epoch s) (num_trained_samples s) (pure_compute_time s) v
                  (eval_mAP s) (end_training s) (converged s).

Definition set_eval_mAP (v : float) (s : TrainingState) :=
  mkTrainingState (epoch s) (num_trained_samples s) (pure_compute_time s)
                  (no_eval_time s) v (end_training s) (converged s).

Definition set_end_training (v : bool) (s : TrainingState) :=
  mkTrainingState (epoch s) (num_trained_samples s) (pure_compute_time s)
                  (no_eval_time s) (eval_mAP s) v (converged s).

Definition set_converged (v : bool) (s : TrainingState) :=
  mkTrainingState (epoch s) (num_trained_samples s) (pure_compute_time s)
                  (no_eval_time s) (eval_mAP s) (end_training s) v.

(** Modelled from the spec: the method [TrainingState.converged_success]
    ([train/training_state.py] is not among the sources).  The spec says
    the trainer "marks the run converged"; the method sets the converged
    flag and nothing else. *)
Definition converged_success (s : TrainingState) : TrainingState :=
  set_converged true s.

(** [math.isfinite] on a Python float. *)
Definition isfinite (x : float) : bool := PrimFloat.is_finite x.

(** [a >= b] on Python floats: false as soon as one side is NaN. *)
Definition float_ge (a b : float) : bool := PrimFloat.leb b a.

(** Headers given to [MetricLogger.log_every]. *)
Inductive Header :=
| HeaderEpoch (e : Z)     (* 'Epoch: [{}]'.format(epoch) *)
| HeaderTest.             (* 'Test:' *)

(** Messages given to [dist_pytorch.main_proc_print]. *)
Inductive Message :=
| MsgInitProgress                                   (* "Init progress:" *)
| MsgConvergedSuccess (eval_mAP target_mAP : float). (* f"converged_success. ..." *)

(** Exit status given to [sys.exit] on a non-finite loss. *)
Definition EXIT_NONFINITE_LOSS : Z := 1.

(* ================================================================== *)
(** * The framework interface *)
(* ================================================================== *)

Section Model.

(** [Obj]: opaque framework objects (tensors, modules, optimizers,
    schedulers, loggers, evaluators, devices, datasets).
    [World]: the hidden state of the framework and of the machine
    (parameters, gradients, optimizer and scheduler state, the clock, the
    ranks).
    [FwExn]: exceptions raised inside the framework. *)
Context {Obj World FwExn : Type}.

(** A Python [dict] with string keys and tensor values. *)
Definition Dict : Type := list (string * Obj).

(** What the trainer reads of a [DataLoader]: the object itself,
    [len(data_loader)] (the number of mini-batches: a loader over a sized
    dataset yields exactly that many), [data_loader.dataset] and
    [len(data_loader.dataset)]. *)
Record DataLoader := mkDataLoader {
  dl_obj : Obj;
  dl_len : Z;
  dl_dataset : Obj;
  dl_dataset_len : Z
}.

(** Every call that leaves [trainer.py], with the arguments the trainer
    passes. *)
Inductive Op :=
(* Trainer.init *)
| TorchSetNumThreads (n : Z)
| TorchDevice (name : string)
| MainProcPrint (m : Message)
| CreateModel
| To (x dev : Obj)                               (* x.to(dev) *)
| AdapterConvertModel (adapter m : Obj)
| AdapterModelToFp16 (adapter m : Obj)
| AdapterModelToDdp (adapter m : Obj)
| CreateOptimizer (m : Obj) (c : Config)
| CreateScheduler (opt : Obj) (c : Config)
(* Trainer.train_one_epoch *)
| SamplerSetEpoch (dl : Obj) (e : Z)
| ModelTrain (m : Obj)                           (* model.train() *)
| TimeTime                                       (* time.time() *)
| NewMetricLogger (delimiter : string)
| NewSmoothedValue (window_size : Z) (fmt : string)
| AddMeter (logger : Obj) (name : string) (meter : Obj)
| WarmupLrScheduler (opt : Obj) (warmup_iters : Z) (warmup_factor : float)
| LogEveryNext (logger dl : Obj) (freq : Z) (h : Header) (i : nat)
| ModelCallTrain (m : Obj) (images : list Obj) (targets : list Dict)
| PySum (xs : list Obj)                          (* sum(x for x in ...) *)
| ReduceDict (d : Dict)
| Item (x : Obj)                                 (* x.item(), a float *)
| AdapterBackward (adapter losses opt : Obj)
| SchedulerStep (s : Obj)                        (* s.step() *)
| LoggerUpdateLoss (logger loss : Obj) (d : Dict)
| OptimizerLr (opt : Obj)                        (* opt.param_groups[0]["lr"] *)
| LoggerUpdateLr (logger lr : Obj)
(* Trainer.evaluate *)
| GetCocoApi (dataset : Obj)
| NewEvaluator (coco : Obj)
| ModelEval (m : Obj)                            (* model.eval() *)
| CudaSynchronize
| ModelCallEval (m : Obj) (images : list Obj)
| ItemInt (x : Obj)                              (* x.item(), an int *)
| EvaluatorUpdate (ev : Obj) (res : list (Z * Dict))
| LoggerUpdateTimes (logger : Obj) (model_time evaluator_time : Q)
| LoggerSynchronize (logger : Obj)
| EvaluatorSynchronize (ev : Obj)
| EvaluatorAccumulate (ev : Obj)
| EvaluatorSummarize (ev : Obj)
| BboxStats (ev : Obj).                 (* ev.coco_eval['bbox'].stats.tolist() *)

(** The Python type of what each call returns. *)
Definition resp (o : Op) : Type :=
  match o with
  | TorchDevice _ | CreateModel | To _ _
  | AdapterConvertModel _ _ | AdapterModelToFp16 _ _ | AdapterModelToDdp _ _
  | CreateOptimizer _ _ | CreateScheduler _ _
  | NewMetricLogger _ | NewSmoothedValue _ _ | WarmupLrScheduler _ _ _
  | PySum _ | OptimizerLr _ | GetCocoApi _ | NewEvaluator _ => Obj
  | TimeTime => Q
  | LogEveryNext _ _ _ _ _ => (list Obj * list Dict)%type
  | ModelCallTrain _ _ _ | ReduceDict _ => Dict
  | ModelCallEval _ _ => list Dict
  | Item _ => float
  | ItemInt _ => Z
  | BboxStats _ => list float
  | _ => unit
  end.

(** A call either returns, or raises; both leave a new world. *)
Inductive Res (A : Type) :=
| Ok (a : A) (w : World)
| Raise (e : FwExn) (w : World).
Arguments Ok {A} a w.
Arguments Raise {A} e w.

(** The framework: how every call is answered. *)
Definition Framework : Type := forall o : Op, World -> Res (resp o).

(** Python exceptions that can leave a method of [Trainer]. *)
Inductive Exn :=
| AttributeError      (* self.model etc. read before [init] *)
| IndexError          (* [0] on an empty list *)
| KeyError            (* target["image_id"] missing *)
| FrameworkError (e : FwExn).

(** What [print] is given. *)
Inductive Printed :=
| PrLossStop (loss_value : float)   (* "Loss is {}, stopping training" *)
| PrDict (d : Dict)                 (* the reduced loss dictionary *)
| PrFloat (v : float)               (* print(state.eval_mAP) *)
| PrAveraged (logger : Obj).        (* "Averaged stats:", metric_logger *)

(** Observable events, in the order they happen: a call into the
    framework and what it returned, an exception being raised, a [print],
    [sys.exit], and entering or leaving [torch.no_grad()]. *)
Inductive Event :=
| EvCall (o : Op)
| EvReturn (o : Op) (a : resp o)
| EvRaise (e : Exn)
| EvPrint (p : Printed)
| EvExit (code : Z)
| EvNoGrad (entering : bool).

(** The attributes of a [Trainer] object.  [model], [optimizer] and
    [lr_scheduler] do not exist before [init] has run. *)
Record Trainer := mkTrainer {
  driver : Obj;
  adapter : Obj;
  device : Obj;
  config : Config;
  evaluator : Obj;
  model : option Obj;
  optimizer : option Obj;
  lr_scheduler : option Obj
}.

Definition set_model (v : Obj) (t : Trainer) :=
  mkTrainer (driver t) (adapter t) (device t) (config t) (evaluator t)
            (Some v) (optimizer t) (lr_scheduler t).

Definition set_optimizer (v : Obj) (t : Trainer) :=
  mkTrainer (driver t) (adapter t) (device t) (config t) (evaluator t)
            (model t) (Some v) (lr_scheduler t).

Definition set_lr_scheduler (v : Obj) (t : Trainer) :=
  mkTrainer (driver t) (adapter t) (device t) (config t) (evaluator t)
            (model t) (optimizer t) (Some v).

Definition set_evaluator (v : Obj) (t : Trainer) :=
  mkTrainer (driver t) (adapter t) (device t) (config t) v
            (model t) (optimizer t) (lr_scheduler t).

(** The program state.  [ts] is the one [TrainingState] object: the local
    [state] and [self.training_state] are two names for it. *)
Record St := mkSt {
  self : Trainer;
  ts : TrainingState;
  world : World;
  trace : list Event
}.

Definition with_self (t : Trainer) (st : St) := mkSt t (ts st) (world st) (trace st).
Definition with_ts (s : TrainingState) (st : St) := mkSt (self st) s (world st) (trace st).
Definition with_world (w : World) (st : St) := mkSt (self st) (ts st) w (trace st).
Definition log (e : Event) (st : St) := mkSt (self st) (ts st) (world st) (trace st ++ [e]).

(* ================================================================== *)
(** * The monad of trainer methods *)
(* ================================================================== *)

(** How a computation ends: it returns, an exception leaves it, or
    [sys.exit] ended the process with a status. *)
Inductive Outcome (A : Type) :=
| Returned (a : A)
| Raised (e : Exn)
| Exited (code : Z).
Arguments Returned {A} a.
Arguments Raised {A} e.
Arguments Exited {A} code.

Definition M (A : Type) : Type := St -> Outcome A * St.

Definition ret {A} (a : A) : M A := fun st => (Returned a, st).

Definition bind {A B} (m : M A) (k : A -> M B) : M B :=
  fun st =>
    match m st with
    | (Returned a, st') => k a st'
    | (Raised e, st') => (Raised e, st')
    | (Exited c, st') => (Exited c, st')
    end.

(** [raise e]. *)
Definition raise {A} (e : Exn) : M A :=
  fun st => (Raised e, log (EvRaise e) st).

(** [sys.exit(code)]. *)
Definition sys_exit {A} (code : Z) : M A :=
  fun st => (Exited code, log (EvExit code) st).

(** [print(...)]. *)
Definition print (p : Printed) : M unit :=
  fun st => (Returned tt, log (EvPrint p) st).

Definition get_self : M Trainer := fun st => (Returned (self st), st).
Definition get_state : M TrainingState := fun st => (Returned (ts st), st).
Definition modify_self (f : Trainer -> Trainer) : M unit :=
  fun st => (Returned tt, with_self (f (self st)) st).
Definition modify_state (f : TrainingState -> TrainingState) : M unit :=
  fun st => (Returned tt, with_ts (f (ts st)) st).

(** Reading an attribute that may not exist yet. *)
Definition attr {A} (f : Trainer -> option A) : M A :=
  fun st =>
    match f (self st) with
    | Some a => (Returned a, st)
    | None => raise AttributeError st
    end.

Variable fw : Framework.

(** A call into the framework. *)
Definition call (o : Op) : M (resp o) :=
  fun st =>
    let st1 := log (EvCall o) st in
    match fw o (world st1) with
    | Ok a w => (Returned a, log (EvReturn o a) (with_world w st1))
    | Raise e w => raise (FrameworkError e) (with_world w st1)
    end.

(** [torch.no_grad()] as a decorator: gradient recording is switched off
    on entry and restored on the way out, also when the body raises; what
    the body raised is raised again.  The two switches only touch the
    world and cannot fail. *)
Variable grad_off : World -> World.
Variable grad_restore : World -> World.

Definition no_grad {A} (body : M A) : M A :=
  fun st =>
    let st1 := with_world (grad_off (world st)) (log (EvNoGrad true) st) in
    let '(out, st2) := body st1 in
    (out, with_world (grad_restore (world st2)) (log (EvNoGrad false) st2)).

Notation "x <- m ;; k" := (bind m (fun x => k))
  (at level 61, m at next level, right associativity).
Notation "m ;;; k" := (bind m (fun _ => k))
  (at level 61, right associativity).

Fixpoint mapM {A B} (f : A -> M B) (xs : list A) : M (list B) :=
  match xs with
  | [] => ret []
  | x :: xs' => y <- f x ;; ys <- mapM f xs' ;; ret (y :: ys)
  end.

(** A [for] loop over a list. *)
Fixpoint for_each {A} (xs : list A) (body : A -> M unit) : M unit :=
  match xs with
  | [] => ret tt
  | x :: xs' => body x ;;; for_each xs' body
  end.

(** [{k: v.to(dev) for k, v in t.items()}]. *)
Definition dict_to (dev : Obj) (t : Dict) : M Dict :=
  mapM (B := string * Obj)
       (fun kv => v <- call (To (snd kv) dev) ;; ret (fst kv, v)) t.

(** [t[key]] on a dictionary read as an association list. *)
Fixpoint dict_get (key : string) (t : Dict) : option Obj :=
  match t with
  | [] => None
  | (k, v) :: t' => if String.eqb k key then Some v else dict_get key t'
  end.

(** [res[key] = v] on a dictionary with integer keys: a key that is
    already there keeps its place and takes the new value. *)
Fixpoint res_set (key : Z) (v : Dict) (res : list (Z * Dict)) : list (Z * Dict) :=
  match res with
  | [] => [(key, v)]
  | (k, v0) :: res' =>
      if k =? key then (k, v) :: res' else (k, v0) :: res_set key v res'
  end.

(** [{target["image_id"].item(): output for target, output in zip(...)}]. *)
Fixpoint build_res (pairs : list (Dict * Dict)) (res : list (Z * Dict))
  : M (list (Z * Dict)) :=
  match pairs with
  | [] => ret res
  | (target, output) :: rest =>
      match dict_get "image_id" target with
      | None => raise KeyError
      | Some x => k <- call (ItemInt x) ;; build_res rest (res_set k output res)
      end
  end.

(* ================================================================== *)
(** * The methods of [Trainer] *)
(* ================================================================== *)

(** [Trainer.__init__]: the trainer as constructed, with its training
    state, in the world [w].  The attributes [model], [optimizer] and
    [lr_scheduler] are not assigned; they do not exist until [init]. *)
Definition Trainer__init__ (driver adapter evaluator : Obj)
    (training_state : TrainingState) (device : Obj) (config : Config)
    (w : World) : St :=
  mkSt (mkTrainer driver adapter device config evaluator None None None)
       training_state w [].

(** [Trainer.init]. *)
Definition init : M unit :=
  call (TorchSetNumThreads 1) ;;;
  me <- get_self ;;
  _ <- call (TorchDevice (device_name (config me))) ;;
  call (MainProcPrint MsgInitProgress) ;;;
  m <- call CreateModel ;;
  modify_self (set_model m) ;;;
  m <- attr model ;;
  me <- get_self ;;
  _ <- call (To m (device me)) ;;
  m <- attr model ;;
  me <- get_self ;;
  m <- call (AdapterConvertModel (adapter me) m) ;;
  modify_self (set_model m) ;;;
  m <- attr model ;;
  me <- get_self ;;
  m <- call (AdapterModelToFp16 (adapter me) m) ;;
  modify_self (set_model m) ;;;
  m <- attr model ;;
  me <- get_self ;;
  m <- call (AdapterModelToDdp (adapter me) m) ;;
  modify_self (set_model m) ;;;
  m <- attr model ;;
  me <- get_self ;;
  opt <- call (CreateOptimizer m (config me)) ;;
  modify_self (set_optimizer opt) ;;;
  opt <- attr optimizer ;;
  me <- get_self ;;
  sch <- call (CreateScheduler opt (config me)) ;;
  modify_self (set_lr_scheduler sch).

(** The body of the evaluation loop, for the [i]-th batch of the loader. *)
Definition evaluate_step (m : Obj) (dl : DataLoader) (dev cpu_device : Obj)
    (metric_logger : Obj) (freq : Z) (i : nat) : M unit :=
  batch <- call (LogEveryNext metric_logger (dl_obj dl) freq HeaderTest i) ;;
  let targets := snd batch in
  images <- mapM (B := Obj) (fun img => call (To img dev)) (fst batch) ;;
  call CudaSynchronize ;;;
  model_time0 <- call TimeTime ;;
  outputs <- call (ModelCallEval m images) ;;
  outputs <- mapM (dict_to cpu_device) outputs ;;
  t <- call TimeTime ;;
  let model_time := (t - model_time0)%Q in
  res <- build_res (combine targets outputs) [] ;;
  evaluator_time0 <- call TimeTime ;;
  me <- get_self ;;
  call (EvaluatorUpdate (evaluator me) res) ;;;
  t <- call TimeTime ;;
  let evaluator_time := (t - evaluator_time0)%Q in
  call (LoggerUpdateTimes metric_logger model_time evaluator_time).

(** [Trainer.evaluate], under its [@torch.no_grad()] decorator. *)
Definition evaluate (m : Obj) (data_loader : DataLoader) (dev : Obj) : M Obj :=
  no_grad (
    coco <- call (GetCocoApi (dl_dataset data_loader)) ;;
    ev <- call (NewEvaluator coco) ;;
    modify_self (set_evaluator ev) ;;;
    cpu_device <- call (TorchDevice "cpu") ;;
    call (ModelEval m) ;;;
    metric_logger <- call (NewMetricLogger "  ") ;;
    me <- get_self ;;
    for_each (seq 0 (Z.to_nat (dl_len data_loader)))
      (evaluate_step m data_loader dev cpu_device metric_logger
                     (log_freq (config me))) ;;;
    (* gather the stats from all processes *)
    call (LoggerSynchronize metric_logger) ;;;
    print (PrAveraged metric_logger) ;;;
    me <- get_self ;;
    call (EvaluatorSynchronize (evaluator me)) ;;;
    (* accumulate predictions from all images *)
    me <- get_self ;;
    call (EvaluatorAccumulate (evaluator me)) ;;;
    me <- get_self ;;
    call (EvaluatorSummarize (evaluator me)) ;;;
    me <- get_self ;;
    ret (evaluator me)).

(** The finiteness check on the reduced loss (lines 92 to 95). *)
Definition check_loss (loss_value : float) (loss_dict_reduced : Dict) : M unit :=
  if negb (isfinite loss_value) then
    print (PrLossStop loss_value) ;;;
    print (PrDict loss_dict_reduced) ;;;
    sys_exit EXIT_NONFINITE_LOSS
  else ret tt.

(** The body of the training loop, for the [i]-th batch of the loader. *)
Definition train_step (m opt : Obj) (dl : DataLoader) (dev : Obj)
    (warmup : option Obj) (metric_logger : Obj) (freq : Z) (header : Header)
    (i : nat) : M unit :=
  batch <- call (LogEveryNext metric_logger (dl_obj dl) freq header i) ;;
  images <- mapM (B := Obj) (fun image => call (To image dev)) (fst batch) ;;
  targets <- mapM (dict_to dev) (snd batch) ;;
  pure_compute_start_time <- call TimeTime ;;
  loss_dict <- call (ModelCallTrain m images targets) ;;
  losses <- call (PySum (map snd loss_dict)) ;;
  (* reduce losses over all GPUs for logging purposes *)
  loss_dict_reduced <- call (ReduceDict loss_dict) ;;
  losses_reduced <- call (PySum (map snd loss_dict_reduced)) ;;
  loss_value <- call (Item losses_reduced) ;;
  check_loss loss_value loss_dict_reduced ;;;
  me <- get_self ;;
  call (AdapterBackward (adapter me) losses opt) ;;;
  match warmup with
  | Some s => call (SchedulerStep s)
  | None => ret tt
  end ;;;
  call (LoggerUpdateLoss metric_logger losses_reduced loss_dict_reduced) ;;;
  lr <- call (OptimizerLr opt) ;;
  call (LoggerUpdateLr metric_logger lr) ;;;
  t <- call TimeTime ;;
  modify_state (fun s =>
    set_pure_compute_time (pure_compute_time s + (t - pure_compute_start_time))%Q s).

(** Lines 115 to 124: read the metric back and set the flags.  [epoch0]
    and [cfg] are the locals [epoch] and [config] bound at the top of
    [train_one_epoch]. *)
Definition conclude_epoch (epoch0 : Z) (cfg : Config) : M unit :=
  me <- get_self ;;
  stats <- call (BboxStats (evaluator me)) ;;
  mAP <- match stats with
         | [] => raise IndexError
         | x :: _ => ret x
         end ;;
  modify_state (set_eval_mAP mAP) ;;;
  state <- get_state ;;
  print (PrFloat (eval_mAP state)) ;;;
  state <- get_state ;;
  (if float_ge (eval_mAP state) (target_mAP cfg) then
     call (MainProcPrint (MsgConvergedSuccess (eval_mAP state) (target_mAP cfg))) ;;;
     modify_state converged_success
   else ret tt) ;;;
  if epoch0 >=? max_epoch cfg then modify_state (set_end_training true)
  else ret tt.

(** Lines 48 to 110: everything before the evaluation.  Returns the
    locals [epoch] and [config]. *)
Definition train_batches (train_dataloader : DataLoader) : M (Z * Config) :=
  m <- attr model ;;
  opt <- attr optimizer ;;
  let data_loader := train_dataloader in
  me <- get_self ;;
  let dev := device me in
  state <- get_state ;;
  let cfg := config me in
  let epoch0 := epoch state in
  me <- get_self ;;
  (if distributed (config me)
   then call (SamplerSetEpoch (dl_obj train_dataloader) epoch0)
   else ret tt) ;;;
  call (ModelTrain m) ;;;
  noeval_start_time <- call TimeTime ;;
  metric_logger <- call (NewMetricLogger "  ") ;;
  meter <- call (NewSmoothedValue 1 "{value:.6f}") ;;
  call (AddMeter metric_logger "lr" meter) ;;;
  let header := HeaderEpoch epoch0 in
  warmup <- (if epoch0 =? 0 then
               let warmup_factor := (1 / 1000)%float in
               let warmup_iters := Z.min 1000 (dl_len data_loader - 1) in
               s <- call (WarmupLrScheduler opt warmup_iters warmup_factor) ;;
               ret (Some s)
             else ret None) ;;
  me <- get_self ;;
  for_each (seq 0 (Z.to_nat (dl_len data_loader)))
    (train_step m opt data_loader dev warmup metric_logger
                (log_freq (config me)) header) ;;;
  sch <- attr lr_scheduler ;;
  call (SchedulerStep sch) ;;;
  modify_state (fun s =>
    set_num_trained_samples
      (num_trained_samples s + dl_dataset_len data_loader) s) ;;;
  t <- call TimeTime ;;
  modify_state (fun s =>
    set_no_eval_time (no_eval_time s + (t - noeval_start_time))%Q s) ;;;
  ret (epoch0, cfg).

(** [Trainer.train_one_epoch]. *)
Definition train_one_epoch (train_dataloader eval_dataloader : DataLoader)
  : M unit :=
  locals <- train_batches train_dataloader ;;
  (* evaluate *)
  m <- attr model ;;
  me <- get_self ;;
  _ <- evaluate m eval_dataloader (device me) ;;
  conclude_epoch (fst locals) (snd locals).

(** Did the computation return? *)
Definition returned {A} (out : Outcome A) : bool :=
  match out with
  | Returned _ => true
  | _ => false
  end.

(** [later st st']: [st'] is reached from [st] by calls of
    [train_one_epoch], on any loaders and however each call ends, between
    which the caller may move the epoch counter. *)
Inductive later : St -> St -> Prop :=
| later_now st : later st st
| later_epoch st tdl edl st' :
    later (snd (train_one_epoch tdl edl st)) st' -> later st st'
| later_counter st e st' :
    later (with_ts (set_epoch e (ts st)) st) st' -> later st st'.

End Model.

Arguments Ok {World FwExn A} a w.
Arguments Raise {World FwExn A} e w.
Arguments Returned {FwExn A} a.
Arguments Raised {FwExn A} e.
Arguments Exited {FwExn A} code.

(* ================================================================== *)
(** * Weakest preconditions and observers *)
(* ================================================================== *)

Section Logic.

Context {Obj World FwExn : Type}.

Local Abbreviation State := (@St Obj World FwExn).
Local Abbreviation Prog := (@M Obj World FwExn).
Local Abbreviation Ev := (@Event Obj FwExn).

(** The two ways a computation ends without returning. *)
Inductive Abort :=
| Raising (e : @Exn FwExn)
| Exiting (code : Z).

Local Abbreviation Stop := Abort.

(** [wp m Qr Qa st]: run from [st], [m] ends in a state that satisfies
    [Qr] if it returns and [Qa] if it does not. *)
Definition wp {A} (m : Prog A)
    (Qr : A -> State -> Prop) (Qa : Abort -> State -> Prop) (st : State) : Prop :=
  match m st with
  | (Returned a, st') => Qr a st'
  | (Raised e, st') => Qa (Raising e) st'
  | (Exited c, st') => Qa (Exiting c) st'
  end.

(** [hoare I m Qa]: [m] keeps the invariant [I] when it returns and
    establishes [Qa] when it does not. *)
Definition hoare {A} (I : State -> Prop) (m : Prog A)
    (Qa : Abort -> State -> Prop) : Prop :=
  forall st, I st -> wp m (fun _ st' => I st') Qa st.

(** Observation starts at [st]: the same state with an empty trace. *)
Definition fresh (st : State) : State :=
  mkSt (self st) (ts st) (world st) [].

(** A projection of the trace: what each event contributes, in order. *)
Definition project {X} (f : Ev -> list X) (st : State) : list X :=
  flat_map f (trace st).

(** A fold over the trace. *)
Definition observe {S} (step : S -> Ev -> S) (s0 : S) (st : State) : S :=
  fold_left step (trace st) s0.

(* ------------------------------------------------------------------ *)
(** ** What the theorems speak about *)
(* ------------------------------------------------------------------ *)

(** The attributes of the trainer that no method assigns. *)
Definition fixed_attributes (t : @Trainer Obj) : Obj * Obj * Obj * Config :=
  (driver t, adapter t, device t, config t).

(** The fields [train_one_epoch] decides the flags from, and the flags:
    the epoch counter, the configuration, the metric, [converged] and
    [end_training]. *)
Definition flags_at (e : Z) (c : Config) (mAP : float) (cv et : bool)
    (st : State) : Prop :=
  epoch (ts st) = e /\ config (self st) = c /\ eval_mAP (ts st) = mAP /\
  converged (ts st) = cv /\ end_training (ts st) = et.

(** The cumulative sample count is [n]. *)
Definition samples_at (n : Z) (st : State) : Prop :=
  num_trained_samples (ts st) = n.

(** The value a clock reading returned, for the events that are one. *)
Definition reading (e : Ev) : option Q :=
  match e with
  | EvReturn o a =>
      match o return resp o -> option Q with
      | TimeTime => fun t => Some t
      | _ => fun _ => None
      end a
  | _ => None
  end.

(** Watching the clock: the last reading, and whether no reading so far
    was lower than the one before it. *)
Definition clock_step (s : option Q * bool) (e : Ev) : option Q * bool :=
  match reading e with
  | Some t =>
      (Some t,
       snd s && match fst s with
                | Some l => Qle_bool l t
                | None => true
                end)
  | None => s
  end.

(** The clock as watched over the whole trace. *)
Definition clock_watch (st : State) : option Q * bool :=
  observe clock_step (None, true) st.

(** The clock was never seen to go back. *)
Definition clock_steady (st : State) : bool := snd (clock_watch st).

(** The last reading is at least each of [marks]. *)
Fixpoint since (marks : list Q) (last : option Q) : Prop :=
  match marks with
  | [] => True
  | t :: marks' =>
      match last with
      | Some l => (t <= l)%Q
      | None => False
      end /\ since marks' last
  end.

(** While the clock is steady, the accumulators are at least [p] and [n]
    and the clock has not gone below the readings in [marks]. *)
Definition timing (p n : Q) (marks : list Q) (st : State) : Prop :=
  clock_steady st = true ->
  (p <= pure_compute_time (ts st))%Q /\ (n <= no_eval_time (ts st))%Q /\
  since marks (fst (clock_watch st)).

(** The exception an event raises, if it is a raise. *)
Definition raised (e : Ev) : list (@Exn FwExn) :=
  match e with
  | EvRaise x => [x]
  | _ => []
  end.

(** What leaves a computation that did not return: its exception. *)
Definition leaving (ab : Stop) : list (@Exn FwExn) :=
  match ab with
  | Raising e => [e]
  | Exiting _ => []
  end.

(** The exception a computation ended with, if it ended with one. *)
Definition escaping {A} (out : @Outcome FwExn A) : list (@Exn FwExn) :=
  match out with
  | Raised e => [e]
  | _ => []
  end.

(** The exceptions raised so far are [base]: none since the call began. *)
Definition quiet (base : list (@Exn FwExn)) (st : State) : Prop :=
  project raised st = base.

(** The one exception raised since the call began is the one that ends
    it. *)
Definition thrown (base : list (@Exn FwExn)) (ab : Stop) (st : State) : Prop :=
  project raised st = base ++ leaving ab.

(** The loss value an event delivers, if it is a non-finite one. *)
Definition nonfinite_loss (e : Ev) : option float :=
  match e with
  | EvReturn o a =>
      match o return resp o -> option float with
      | Item _ => fun v => if isfinite v then None else Some v
      | _ => fun _ => None
      end a
  | _ => None
  end.

(** The dictionary an event delivers, if it is the return of
    [reduce_dict]. *)
Definition reduced (e : Ev) : option (@Dict Obj) :=
  match e with
  | EvReturn o a =>
      match o return resp o -> option Dict with
      | ReduceDict _ => fun d => Some d
      | _ => fun _ => None
      end a
  | _ => None
  end.

(** Watching for a non-finite loss: either none was read so far
    ([Sound], with the last reduced loss dictionary), or one was
    ([Unsound], with the value, the reduced loss dictionary of that step
    and every event since). *)
Inductive LossWatch :=
| Sound (last_reduced : option (@Dict Obj))
| Unsound (loss_value : float) (loss_dict_reduced : option (@Dict Obj))
          (since_then : list Ev).

Definition loss_step (s : LossWatch) (e : Ev) : LossWatch :=
  match s with
  | Sound d =>
      match nonfinite_loss e with
      | Some v => Unsound v d []
      | None =>
          Sound (match reduced e with
                 | Some d' => Some d'
                 | None => d
                 end)
      end
  | Unsound v d evs => Unsound v d (evs ++ [e])
  end.

(** The losses as watched over the whole trace. *)
Definition loss_watch (st : State) : LossWatch :=
  observe loss_step (Sound None) st.

(** No non-finite loss was read. *)
Definition sound (st : State) : Prop :=
  match loss_watch st with
  | Sound _ => True
  | Unsound _ _ _ => False
  end.

(** A non-finite loss was read, and since then the loss value and the
    reduced loss dictionary were printed and the process exited with
    status [c]; nothing else happened. *)
Definition stopped (c : Z) (st : State) : Prop :=
  match loss_watch st with
  | Sound _ => False
  | Unsound v d evs =>
      exists dict,
        d = Some dict /\
        evs = [EvPrint (PrLossStop v); EvPrint (PrDict dict); EvExit c]
  end.

(** How a call may end: an exception leaves with no non-finite loss
    read; an exit is the exit of the finiteness check. *)
Definition halting (ab : Stop) (st : State) : Prop :=
  match ab with
  | Raising _ => sound st
  | Exiting c => c = EXIT_NONFINITE_LOSS /\ stopped c st
  end.

(** How [evaluate] may end: it never exits. *)
Definition raising_only (ab : Stop) (st : State) : Prop :=
  match ab with
  | Raising _ => sound st
  | Exiting _ => False
  end.

(** While the dictionary [d] is the last one reduced. *)
Definition reduced_to (d : @Dict Obj) (st : State) : Prop :=
  loss_watch st = Sound (Some d).

(** The projection [f] of the trace is [L], and [self.lr_scheduler] is
    [sch]. *)
Definition tracked {X} (f : Ev -> list X) (L : list X) (sch : option Obj)
    (st : State) : Prop :=
  project f st = L /\ lr_scheduler (self st) = sch.

(** A computation that did not return stopped with a projection that
    satisfies [G]. *)
Definition aborted {X} (f : Ev -> list X) (G : list X -> Prop)
    (sch : option Obj) (ab : Stop) (st : State) : Prop :=
  exists L, tracked f L sch st /\ G L.

(** What an event says about the schedulers: the creation of the warmup
    scheduler (with the arguments given), the scheduler it returned, and
    every [step()] of a scheduler. *)
Inductive SchedulerEvent :=
| Created (opt : Obj) (warmup_iters : Z) (warmup_factor : float)
| Handle (s : Obj)
| Stepped (s : Obj).

Definition schedule (e : Ev) : list SchedulerEvent :=
  match e with
  | EvCall (WarmupLrScheduler opt iters factor) => [Created opt iters factor]
  | EvCall (SchedulerStep s) => [Stepped s]
  | EvReturn o a =>
      match o return resp o -> list SchedulerEvent with
      | WarmupLrScheduler _ _ _ => fun s => [Handle s]
      | _ => fun _ => []
      end a
  | _ => []
  end.

(** The steps of the warmup scheduler in one training step. *)
Definition steps_of_warmup (warmup : option Obj) : list SchedulerEvent :=
  match warmup with
  | Some s => [Stepped s]
  | None => []
  end.

(** The scheduler events of an epoch that returns, on a loader of [n]
    batches. *)
Definition epoch_schedule (e : Z) (opt sch : Obj) (len : Z)
    (new : list SchedulerEvent) : Prop :=
  if e =? 0 then
    exists s,
      new = Created opt (Z.min 1000 (len - 1)) (1 / 1000)%float
            :: Handle s :: repeat (Stepped s) (Z.to_nat len) ++ [Stepped sch]
  else new = [Stepped sch].

(** The scheduler events of an epoch other than the first, however it
    ends. *)
Definition later_schedule (e : Z) (sch : option Obj)
    (new : list SchedulerEvent) : Prop :=
  e <> 0 -> new = [] \/ exists s, sch = Some s /\ new = [Stepped s].

(** The milestones of an epoch: a mini-batch was delivered to the
    training loop, a backward pass returned, a scheduler stepped, the
    evaluation began, summarised its statistics and ended, the statistics
    were read back, convergence was announced. *)
Inductive Milestone :=
| Batch (i : nat)
| Backward
| Step (s : Obj)
| EvalBegin
| Summarized
| EvalEnd
| Stats (stats : list float)
| Announced (eval_mAP target_mAP : float).

Definition milestone (e : Ev) : list Milestone :=
  match e with
  | EvNoGrad true => [EvalBegin]
  | EvNoGrad false => [EvalEnd]
  | EvCall (MainProcPrint (MsgConvergedSuccess m t)) => [Announced m t]
  | EvReturn o a =>
      match o return resp o -> list Milestone with
      | LogEveryNext _ _ _ (HeaderEpoch _) i => fun _ => [Batch i]
      | AdapterBackward _ _ _ => fun _ => [Backward]
      | SchedulerStep s => fun _ => [Step s]
      | EvaluatorSummarize _ => fun _ => [Summarized]
      | BboxStats _ => fun stats => [Stats stats]
      | _ => fun _ => []
      end a
  | _ => []
  end.

(** The milestones of one training step on batch [i]. *)
Definition step_milestones (warmup : option Obj) (i : nat) : list Milestone :=
  Batch i :: Backward ::
  match warmup with
  | Some s => [Step s]
  | None => []
  end.

(** Nothing is asked of a computation that does not return. *)
Definition anything (ab : Stop) (st : State) : Prop := True.

(** The milestones of an epoch that returns: every mini-batch in turn
    (with its backward pass and its warmup step, if any), the step of the
    trainer's scheduler, one evaluation, the statistics, and the
    announcement if the metric meets the target. *)
Definition epoch_milestones (n : nat) (warmup : option Obj) (sch : Obj)
    (stats : list float) (mAP target : float) : list Milestone :=
  flat_map (step_milestones warmup) (seq 0 n)
  ++ [Step sch; EvalBegin; Summarized; EvalEnd; Stats stats]
  ++ (if float_ge mAP target then [Announced mAP target] else []).

(* ------------------------------------------------------------------ *)
(** ** Construction and initialisation *)
(* ------------------------------------------------------------------ *)

(** A call that the framework answered with [a]. *)
Definition answered (o : @Op Obj) (a : resp o) : list Ev :=
  [EvCall o; EvReturn o a].

(** The calls of an [init] that returns, with what each returned: the
    torch device [dev], the model [m0] as created, [moved] from
    [m0.to(device)], the model after each of the three conversions of the
    adapter, the optimizer and the scheduler. *)
Definition init_calls (t : @Trainer Obj)
    (dev m0 moved m1 m2 m3 opt sch : Obj) : list Ev :=
  answered (TorchSetNumThreads 1) tt
  ++ answered (TorchDevice (device_name (config t))) dev
  ++ answered (MainProcPrint MsgInitProgress) tt
  ++ answered CreateModel m0
  ++ answered (To m0 (device t)) moved
  ++ answered (AdapterConvertModel (adapter t) m0) m1
  ++ answered (AdapterModelToFp16 (adapter t) m1) m2
  ++ answered (AdapterModelToDdp (adapter t) m2) m3
  ++ answered (CreateOptimizer m3 (config t)) opt
  ++ answered (CreateScheduler opt (config t)) sch.

(** The three attributes [init] assigns are there. *)
Definition ready (st : State) : Prop :=
  model (self st) <> None /\ optimizer (self st) <> None /\
  lr_scheduler (self st) <> None.

(** A computation did not stop on a missing attribute. *)
Definition no_attribute_error (ab : Stop) : Prop :=
  ab <> Raising AttributeError.

(** The outcome is the [AttributeError] of a missing attribute. *)
Definition missing_attribute {A} (out : @Outcome FwExn A) : bool :=
  match out with
  | Raised AttributeError => true
  | _ => false
  end.

(* ------------------------------------------------------------------ *)
(** ** What the evaluation touches *)
(* ------------------------------------------------------------------ *)

(** The projection [f] of the trace is [L], and the observation [g] of
    the state is [y]. *)
Definition kept {X Y} (f : Ev -> list X) (L : list X) (g : State -> Y)
    (y : Y) (st : State) : Prop :=
  project f st = L /\ g st = y.

(** What training works on: the training state and the three attributes
    [init] assigns. *)
Definition trained (st : State)
  : TrainingState * option Obj * option Obj * option Obj :=
  (ts st, model (self st), optimizer (self st), lr_scheduler (self st)).

(** The calls that train: the sampler's epoch, train mode, the forward
    pass in train mode, the backward pass with the optimizer step, the
    warmup scheduler and every scheduler step. *)
Definition training_call (e : Ev) : list (@Op Obj) :=
  match e with
  | EvCall o =>
      match o with
      | SamplerSetEpoch _ _ | ModelTrain _ | WarmupLrScheduler _ _ _
      | ModelCallTrain _ _ _ | AdapterBackward _ _ _ | SchedulerStep _ => [o]
      | _ => []
      end
  | _ => []
  end.

(** The outcome is an exit of the process. *)
Definition exits {A} (out : @Outcome FwExn A) : bool :=
  match out with
  | Exited _ => true
  | _ => false
  end.

(** A computation that did not return kept [f] and [g] and did not
    exit. *)
Definition kept_raising {X Y} (f : Ev -> list X) (L : list X)
    (g : State -> Y) (y : Y) (ab : Stop) (st : State) : Prop :=
  kept f L g y st /\
  match ab with
  | Raising _ => True
  | Exiting _ => False
  end.

(* ------------------------------------------------------------------ *)
(** ** The conduct of an epoch *)
(* ------------------------------------------------------------------ *)

(** What an event says about how an epoch is conducted: the sampler was
    given the epoch, the model was put in train or in eval mode, the COCO
    API of a dataset was obtained, an evaluator was built on a COCO API,
    and an evaluator was updated, synchronised, accumulated, summarised
    or had its bbox statistics read. *)
Inductive Conduct :=
| SetEpoch (sampler : Obj) (e : Z)
| TrainMode (m : Obj)
| EvalMode (m : Obj)
| Coco (dataset coco : Obj)
| NewEval (coco ev : Obj)
| Update (ev : Obj)
| Synchronize (ev : Obj)
| Accumulate (ev : Obj)
| Summarize (ev : Obj)
| ReadStats (ev : Obj).

Definition conduct (e : Ev) : list Conduct :=
  match e with
  | EvCall (SamplerSetEpoch s n) => [SetEpoch s n]
  | EvCall (ModelTrain m) => [TrainMode m]
  | EvCall (ModelEval m) => [EvalMode m]
  | EvCall (EvaluatorUpdate ev _) => [Update ev]
  | EvCall (EvaluatorSynchronize ev) => [Synchronize ev]
  | EvCall (EvaluatorAccumulate ev) => [Accumulate ev]
  | EvCall (EvaluatorSummarize ev) => [Summarize ev]
  | EvCall (BboxStats ev) => [ReadStats ev]
  | EvReturn o a =>
      match o return resp o -> list Conduct with
      | GetCocoApi dataset => fun coco => [Coco dataset coco]
      | NewEvaluator coco => fun ev => [NewEval coco ev]
      | _ => fun _ => []
      end a
  | _ => []
  end.

(** The model and the evaluator the trainer holds. *)
Definition in_use (st : State) : option Obj * Obj :=
  (model (self st), evaluator (self st)).

(** The conduct of an evaluation that returns, of the model [m] on a
    loader of [n] batches over [dataset]. *)
Definition evaluation_conduct (m dataset coco ev : Obj) (n : nat)
  : list Conduct :=
  [Coco dataset coco; NewEval coco ev; EvalMode m]
  ++ repeat (Update ev) n
  ++ [Synchronize ev; Accumulate ev; Summarize ev].

(** The conduct of an epoch that returns. *)
Definition epoch_conduct (cfg : Config) (e : Z) (m : Obj)
    (tdl edl : @DataLoader Obj) (coco ev : Obj) : list Conduct :=
  (if distributed cfg then [SetEpoch (dl_obj tdl) e] else [])
  ++ [TrainMode m]
  ++ evaluation_conduct m (dl_dataset edl) coco ev (Z.to_nat (dl_len edl))
  ++ [ReadStats ev].

(* ------------------------------------------------------------------ *)
(** ** The dictionary of results *)
(* ------------------------------------------------------------------ *)

(** [res.get(key)] on a dictionary with integer keys. *)
Fixpoint res_get (key : Z) (res : list (Z * @Dict Obj)) : option (@Dict Obj) :=
  match res with
  | [] => None
  | (k, v) :: res' => if k =? key then Some v else res_get key res'
  end.

(** The integers that [.item()] returned on image ids. *)
Definition item_read (e : Ev) : list Z :=
  match e with
  | EvReturn o a =>
      match o return resp o -> list Z with
      | ItemInt _ => fun k => [k]
      | _ => fun _ => []
      end a
  | _ => []
  end.

(** The output zipped with the last of [ids] that is [key]. *)
Fixpoint last_with (key : Z) (ids : list Z) (outputs : list (@Dict Obj))
  : option (@Dict Obj) :=
  match ids, outputs with
  | k :: ids', v :: outputs' =>
      match last_with key ids' outputs' with
      | Some v' => Some v'
      | None => if k =? key then Some v else None
      end
  | _, _ => None
  end.

(** The target has an ["image_id"]. *)
Definition has_image_id (pair : @Dict Obj * @Dict Obj) : bool :=
  match dict_get "image_id" (fst pair) with
  | Some _ => true
  | None => false
  end.

(** What is known of a [build_res] that stops: a [KeyError] means that a
    target has no ["image_id"]; the only other way to stop is an
    exception of the framework. *)
Definition stopped_on_key (pairs : list (@Dict Obj * @Dict Obj)) (ab : Stop)
    (st : State) : Prop :=
  match ab with
  | Raising KeyError => forallb has_image_id pairs = false
  | Raising (FrameworkError _) => True
  | _ => False
  end.

(* ------------------------------------------------------------------ *)
(** ** What an exit leaves behind *)
(* ------------------------------------------------------------------ *)

(** The training state but for [pure_compute_time]. *)
Definition recorded (s : TrainingState) : Z * Z * Q * float * bool * bool :=
  (epoch s, num_trained_samples s, no_eval_time s, eval_mAP s,
   end_training s, converged s).

(** The trainer, and what is recorded of the training. *)
Definition settled (st : State) : @Trainer Obj * (Z * Z * Q * float * bool * bool) :=
  (self st, recorded (ts st)).

(** The observation [g] of the state is [y]. *)
Definition held {Y} (g : State -> Y) (y : Y) (st : State) : Prop := g st = y.

(** An exit found [g] at [y]; nothing is asked of an exception. *)
Definition held_at_exit {Y} (g : State -> Y) (y : Y) (ab : Stop)
    (st : State) : Prop :=
  match ab with
  | Exiting _ => g st = y
  | Raising _ => True
  end.

(** Nothing is asked of the state. *)
Definition whatever (st : State) : Prop := True.

(* ------------------------------------------------------------------ *)
(** ** Empty statistics *)
(* ------------------------------------------------------------------ *)




(* ------------------------------------------------------------------ *)
(** ** The two timers *)
(* ------------------------------------------------------------------ *)





(* ------------------------------------------------------------------ *)
(** ** The flow of the losses through a training step *)
(* ------------------------------------------------------------------ *)

(** What an event says about the losses: the model returned a loss
    dictionary; a sum was taken; a dictionary was reduced across ranks; a
    tensor was read as a number; a backward pass was started; the logger
    was given losses; the learning rate was read and logged. *)
Inductive Flow :=
| Forward (m : Obj) (loss_dict : @Dict Obj)
| Summed (terms : list Obj) (total : Obj)
| Reduction (loss_dict loss_dict_reduced : @Dict Obj)
| Scalar (x : Obj) (v : float)
| Backpropagated (adapter losses opt : Obj)
| Reported (losses_reduced : Obj) (loss_dict_reduced : @Dict Obj)
| LrOf (opt lr : Obj)
| LrReported (lr : Obj).

Definition flow (e : Ev) : list Flow :=
  match e with
  | EvCall (AdapterBackward ad losses opt) => [Backpropagated ad losses opt]
  | EvCall (LoggerUpdateLoss _ losses_reduced d) => [Reported losses_reduced d]
  | EvCall (LoggerUpdateLr _ lr) => [LrReported lr]
  | EvReturn o a =>
      match o return resp o -> list Flow with
      | ModelCallTrain m _ _ => fun d => [Forward m d]
      | PySum terms => fun total => [Summed terms total]
      | ReduceDict d => fun dr => [Reduction d dr]
      | Item x => fun v => [Scalar x v]
      | OptimizerLr opt => fun lr => [LrOf opt lr]
      | _ => fun _ => []
      end a
  | _ => []
  end.

(** The adapter of the trainer. *)
Definition adapter_in_use (st : State) : Obj := adapter (self st).

(** The flow of a training step that returns: the loss dictionary [d] of
    the model, its sum [l], the reduced dictionary [dr], its sum [lr] and
    the number [v] read from it, the backward pass, and what is logged. *)
Definition step_flow (m ad opt : Obj) (d : @Dict Obj) (l : Obj)
    (dr : @Dict Obj) (lr : Obj) (v : float) (rate : Obj) : list Flow :=
  [ Forward m d; Summed (map snd d) l; Reduction d dr;
    Summed (map snd dr) lr; Scalar lr v; Backpropagated ad l opt;
    Reported lr dr; LrOf opt rate; LrReported rate ].

End Logic.

(* ================================================================== *)
(** * A scripted framework, to run the trainer on concrete inputs *)
(* ================================================================== *)

Module Demo.

(** Objects are identities; the world remembers the batch being processed
    and how often the clock was read. *)
Definition Obj : Type := nat.

Record World := mkWorld {
  batch : nat;
  readings : nat;
  evaluations : nat
}.

(** What a run is scripted with: the loss of every batch, the statistics
    the evaluator ends its [n]-th evaluation with, the clock, and which
    calls raise. *)
Record Script := mkScript {
  loss_at : nat -> float;
  stats : nat -> list float;
  time_at : nat -> Q;
  raises : @Op Obj -> bool
}.

Definition detections : @Dict Obj :=
  [("boxes", 21%nat); ("scores", 22%nat); ("labels", 23%nat)].

Definition answer (sc : Script) (o : @Op Obj) (w : World)
  : @Res World string (resp o) :=
  match o return @Res World string (resp o) with
  | TorchSetNumThreads _ => Ok tt w
  | TorchDevice _ => Ok 30%nat w
  | MainProcPrint _ => Ok tt w
  | CreateModel => Ok 31%nat w
  | To x _ => Ok x w
  | AdapterConvertModel _ m => Ok m w
  | AdapterModelToFp16 _ m => Ok m w
  | AdapterModelToDdp _ m => Ok m w
  | CreateOptimizer _ _ => Ok 32%nat w
  | CreateScheduler _ _ => Ok 33%nat w
  | SamplerSetEpoch _ _ => Ok tt w
  | ModelTrain _ => Ok tt w
  | TimeTime =>
      Ok (time_at sc (readings w))
         (mkWorld (batch w) (S (readings w)) (evaluations w))
  | NewMetricLogger _ => Ok 34%nat w
  | NewSmoothedValue _ _ => Ok 35%nat w
  | AddMeter _ _ _ => Ok tt w
  | WarmupLrScheduler _ _ _ => Ok 36%nat w
  | LogEveryNext _ _ _ _ i =>
      Ok ([40%nat], [[("boxes", 41%nat); ("labels", 42%nat); ("image_id", i)]])
         (mkWorld i (readings w) (evaluations w))
  | ModelCallTrain _ _ _ =>
      Ok [("classification", 50%nat); ("bbox_regression", 51%nat)] w
  | PySum _ => Ok 52%nat w
  | ReduceDict d => Ok d w
  | Item _ => Ok (loss_at sc (batch w)) w
  | AdapterBackward _ _ _ => Ok tt w
  | SchedulerStep _ => Ok tt w
  | LoggerUpdateLoss _ _ _ => Ok tt w
  | OptimizerLr _ => Ok 53%nat w
  | LoggerUpdateLr _ _ => Ok tt w
  | GetCocoApi _ => Ok 60%nat (mkWorld (batch w) (readings w) (S (evaluations w)))
  | NewEvaluator _ => Ok 61%nat w
  | ModelEval _ => Ok tt w
  | CudaSynchronize => Ok tt w
  | ModelCallEval _ images => Ok (map (fun _ => detections) images) w
  | ItemInt x => Ok (Z.of_nat x) w
  | EvaluatorUpdate _ _ => Ok tt w
  | LoggerUpdateTimes _ _ _ => Ok tt w
  | LoggerSynchronize _ => Ok tt w
  | EvaluatorSynchronize _ => Ok tt w
  | EvaluatorAccumulate _ => Ok tt w
  | EvaluatorSummarize _ => Ok tt w
  | BboxStats _ => Ok (stats sc (evaluations w)) w
  end.

Definition framework (sc : Script) : @Framework Obj World string :=
  fun o w => if raises sc o then Raise "RuntimeError" w else answer sc o w.

(** The [n]-th reading of a clock that ticks once per reading. *)
Definition ticking (n : nat) : Q := inject_Z (Z.of_nat n).

(** A clock that is set back by an hour after its third reading. *)
Definition set_back (n : nat) : Q :=
  if (n <? 3)%nat then inject_Z (Z.of_nat n + 3600) else inject_Z (Z.of_nat n).

Definition never (o : @Op Obj) : bool := false.

Definition reduce_fails (o : @Op Obj) : bool :=
  match o with
  | ReduceDict _ => true
  | _ => false
  end.

Definition nan : float := (0 / 0)%float.

(** mAP 0.36 after the first evaluation, 0.2 after every later one. *)
Definition peak_then_drop (n : nat) : list float :=
  if (n <=? 1)%nat then [0.36%float; 0.55%float; 0.39%float]
  else [0.2%float; 0.3%float; 0.21%float].

(** Every batch has loss 0.5. *)
Definition healthy : Script :=
  mkScript (fun _ => 0.5%float) peak_then_drop ticking never.

(** As [healthy], with mAP 0.2 from the first evaluation on. *)
Definition weak : Script :=
  mkScript (fun _ => 0.5%float) (fun _ => [0.2%float; 0.3%float]) ticking never.

(** The loss of the second batch is NaN. *)
Definition diverging : Script :=
  mkScript (fun i => if (i =? 1)%nat then nan else 0.5%float)
           peak_then_drop ticking never.

(** As [healthy], with the clock set back during the epoch. *)
Definition clock_set_back : Script :=
  mkScript (fun _ => 0.5%float) peak_then_drop set_back never.

(** As [healthy], but the reduction across ranks raises. *)
Definition comm_fault : Script :=
  mkScript (fun _ => 0.5%float) peak_then_drop ticking reduce_fails.

Definition cfg : Config := mkConfig "cuda" true 20 0.35%float 26.

Definition trainer : @Trainer Obj :=
  mkTrainer 1%nat 2%nat 3%nat cfg 4%nat (Some 5%nat) (Some 6%nat) (Some 7%nat).

(** A training state at the start of epoch [e]. *)
Definition state_at (e : Z) : TrainingState :=
  mkTrainingState e 0 0 0 0%float false false.

Definition start (e : Z) : @St Obj World string :=
  mkSt trainer (state_at e) (mkWorld 0 0 0) [].

(** Three mini-batches over 12 images; 5 images to evaluate on, in two
    batches. *)
Definition train_dataloader : @DataLoader Obj := mkDataLoader 10%nat 3 11%nat 12.
Definition eval_dataloader : @DataLoader Obj := mkDataLoader 12%nat 2 13%nat 5.

(** One epoch, from a given state and from the start of epoch [e]. *)
Definition epoch_from (sc : Script) (st : @St Obj World string) :=
  train_one_epoch (framework sc) (fun w => w) (fun w => w)
                  train_dataloader eval_dataloader st.

Definition epoch_run (sc : Script) (e : Z) := epoch_from sc (start e).

(** Two epochs in a row: epoch 26, then the caller moves the counter back
    to 3 and runs another epoch. *)
Definition after_first : @St Obj World string := snd (epoch_run healthy 26).

Definition after_second : @St Obj World string :=
  snd (train_one_epoch (framework healthy) (fun w => w) (fun w => w)
         train_dataloader eval_dataloader
         (with_ts (set_epoch 3 (ts after_first)) after_first)).

(** A trainer as constructed, initialised, and after its first epoch. *)
Definition constructed : @St Obj World string :=
  Trainer__init__ 1%nat 2%nat 4%nat (state_at 0) 3%nat cfg (mkWorld 0 0 0).

Definition initialised : @St Obj World string :=
  snd (init (framework healthy) constructed).

Definition after_initial_epoch : @St Obj World string :=
  snd (train_one_epoch (framework healthy) (fun w => w) (fun w => w)
         train_dataloader eval_dataloader initialised).

(** Three targets zipped with their outputs; the first and the last have
    the same image id. *)
Definition zipped : list (@Dict Obj * @Dict Obj) :=
  [ ([("boxes", 41%nat); ("image_id", 7%nat)], [("scores", 70%nat)]);
    ([("image_id", 9%nat)], [("scores", 71%nat)]);
    ([("image_id", 7%nat); ("labels", 42%nat)], [("scores", 72%nat)]) ].


End Demo.

(* ================================================================== *)
(** * Rules of the program logic *)
(* ================================================================== *)

Section Proofs.

Context {Obj World FwExn : Type}.
Variable fw : @Framework Obj World FwExn.
Variables grad_off grad_restore : World -> World.

Local Abbreviation State := (@St Obj World FwExn).
Local Abbreviation Prog := (@M Obj World FwExn).
Local Abbreviation Ev := (@Event Obj FwExn).
Local Abbreviation Stop := (@Abort FwExn).

Implicit Types (st : State) (Qa : Stop -> State -> Prop) (I : State -> Prop).

Lemma wp_conseq A (m : Prog A) (Qr Qr' : A -> State -> Prop) Qa Qa' st :
  wp m Qr Qa st ->
  (forall a st', Qr a st' -> Qr' a st') ->
  (forall ab st', Qa ab st' -> Qa' ab st') ->
  wp m Qr' Qa' st.
Proof.
  unfold wp; intros H Hr Ha.
  destruct (m st) as [[a | e | c] st']; auto.
Qed.

Lemma wp_post A (m : Prog A) (Qr Qr' : A -> State -> Prop) Qa st :
  (forall a st', Qr a st' -> Qr' a st') -> wp m Qr Qa st -> wp m Qr' Qa st.
Proof. intros Hr H. eapply wp_conseq; [exact H | exact Hr | auto]. Qed.

Lemma wp_ret A (a : A) (Qr : A -> State -> Prop) Qa st :
  Qr a st -> wp (ret a) Qr Qa st.
Proof. exact (fun H => H). Qed.

Lemma wp_bind A B (m : Prog A) (k : A -> Prog B) (Qr : B -> State -> Prop) Qa st :
  wp m (fun a st' => wp (k a) Qr Qa st') Qa st -> wp (bind m k) Qr Qa st.
Proof.
  unfold wp, bind; destruct (m st) as [[a | e | c] st']; auto.
Qed.

Lemma wp_call o (Qr : resp o -> State -> Prop) Qa st :
  match fw o (world st) with
  | Ok a w => Qr a (log (EvReturn o a) (with_world w (log (EvCall o) st)))
  | Raise e w =>
      Qa (Raising (FrameworkError e))
         (log (EvRaise (FrameworkError e)) (with_world w (log (EvCall o) st)))
  end ->
  wp (call fw o) Qr Qa st.
Proof.
  unfold wp, call, raise; cbn.
  destruct (fw o (world st)); auto.
Qed.

Lemma wp_no_grad A (body : Prog A) (Qr : A -> State -> Prop) Qa st :
  wp body
     (fun a st' => Qr a (with_world (grad_restore (world st')) (log (EvNoGrad false) st')))
     (fun ab st' => Qa ab (with_world (grad_restore (world st')) (log (EvNoGrad false) st')))
     (with_world (grad_off (world st)) (log (EvNoGrad true) st)) ->
  wp (no_grad grad_off grad_restore body) Qr Qa st.
Proof.
  unfold wp, no_grad.
  destruct (body _) as [[a | e | c] st']; auto.
Qed.

Lemma wp_hoare A (m : Prog A) I (Qr : A -> State -> Prop) Qa st :
  hoare I m Qa -> I st -> (forall a st', I st' -> Qr a st') -> wp m Qr Qa st.
Proof.
  intros H HI Hr. eapply wp_conseq; [exact (H st HI) | auto | auto].
Qed.

Lemma hoare_wp A (m : Prog A) I Qa :
  (forall st, I st -> wp m (fun _ st' => I st') Qa st) -> hoare I m Qa.
Proof. exact (fun H => H). Qed.

Lemma hoare_conseq A (m : Prog A) I Qa Qa' :
  hoare I m Qa -> (forall ab st, Qa ab st -> Qa' ab st) -> hoare I m Qa'.
Proof.
  intros H Ha st HI. eapply wp_conseq; [exact (H st HI) | auto | exact Ha].
Qed.

Lemma hoare_ret A (a : A) I Qa : hoare I (ret (Obj:=Obj) (World:=World) a) Qa.
Proof. intros st H; exact H. Qed.

Lemma hoare_bind A B (m : Prog A) (k : A -> Prog B) I Qa :
  hoare I m Qa -> (forall a, hoare I (k a) Qa) -> hoare I (bind m k) Qa.
Proof.
  intros Hm Hk st HI. apply wp_bind.
  eapply wp_conseq; [exact (Hm st HI) | | auto].
  intros a st' HI'. exact (Hk a st' HI').
Qed.

Lemma hoare_mapM A B (f : A -> Prog B) xs I Qa :
  (forall x, hoare I (f x) Qa) -> hoare I (mapM f xs) Qa.
Proof.
  intros Hf. induction xs as [| x xs IH]; cbn [mapM].
  - apply hoare_ret.
  - apply hoare_bind; [apply Hf |]. intros y.
    apply hoare_bind; [exact IH |]. intros ys. apply hoare_ret.
Qed.

Lemma hoare_for_each A (body : A -> Prog unit) xs I Qa :
  (forall x, hoare I (body x) Qa) -> hoare I (for_each xs body) Qa.
Proof.
  intros Hb. induction xs as [| x xs IH]; cbn [for_each].
  - apply hoare_ret.
  - apply hoare_bind; [apply Hb | intros _; exact IH].
Qed.

Lemma hoare_get_self I Qa : hoare I (get_self (Obj:=Obj) (World:=World)) Qa.
Proof. intros st H; exact H. Qed.

Lemma hoare_get_state I Qa : hoare I (get_state (Obj:=Obj) (World:=World)) Qa.
Proof. intros st H; exact H. Qed.

Lemma hoare_call o I Qa :
  (forall st a w, I st ->
     I (log (EvReturn o a) (with_world w (log (EvCall o) st)))) ->
  (forall st e w, I st ->
     Qa (Raising (FrameworkError e))
        (log (EvRaise (FrameworkError e)) (with_world w (log (EvCall o) st)))) ->
  hoare I (call fw o) Qa.
Proof.
  intros Hr Ha st HI. apply wp_call.
  destruct (fw o (world st)); auto.
Qed.

Lemma hoare_print p I Qa :
  (forall st, I st -> I (log (EvPrint p) st)) -> hoare I (print p) Qa.
Proof. intros H st HI; exact (H st HI). Qed.

Lemma hoare_raise A e I Qa :
  (forall st, I st -> Qa (Raising e) (log (EvRaise e) st)) ->
  hoare I (raise (A:=A) e) Qa.
Proof. intros H st HI; exact (H st HI). Qed.

Lemma hoare_sys_exit A c I Qa :
  (forall st, I st -> Qa (Exiting c) (log (EvExit c) st)) ->
  hoare I (sys_exit (A:=A) c) Qa.
Proof. intros H st HI; exact (H st HI). Qed.

Lemma hoare_attr A (f : Trainer -> option A) I Qa :
  (forall st, I st -> Qa (Raising AttributeError) (log (EvRaise AttributeError) st)) ->
  hoare I (attr f) Qa.
Proof.
  intros H st HI. unfold wp, attr.
  destruct (f (self st)); [exact HI | exact (H st HI)].
Qed.

Lemma hoare_modify_self f I Qa :
  (forall st, I st -> I (with_self (f (self st)) st)) -> hoare I (modify_self f) Qa.
Proof. intros H st HI; exact (H st HI). Qed.

Lemma hoare_modify_state f I Qa :
  (forall st, I st -> I (with_ts (f (ts st)) st)) -> hoare I (modify_state f) Qa.
Proof. intros H st HI; exact (H st HI). Qed.

Lemma hoare_no_grad A (body : Prog A) I Qa :
  (forall st, I st -> I (with_world (grad_off (world st)) (log (EvNoGrad true) st))) ->
  (forall st, I st -> I (with_world (grad_restore (world st)) (log (EvNoGrad false) st))) ->
  (forall ab st, Qa ab st ->
     Qa ab (with_world (grad_restore (world st)) (log (EvNoGrad false) st))) ->
  hoare I body Qa ->
  hoare I (no_grad grad_off grad_restore body) Qa.
Proof.
  intros Hin Hout Hab Hb st HI. apply wp_no_grad.
  eapply wp_conseq; [exact (Hb _ (Hin st HI)) | |]; cbv beta; auto.
Qed.

Lemma hoare_final A (m : Prog A) I st :
  hoare I m (fun _ st' => I st') -> I st -> I (snd (m st)).
Proof.
  intros H HI. specialize (H st HI). unfold wp in H.
  destruct (m st) as [[a | e | c] st']; exact H.
Qed.

(** One step of a walk through a program whose every primitive keeps the
    invariant; [side] proves what the primitives ask for, [extra] knows the
    recursive functions. *)
Ltac head_of t :=
  lazymatch t with
  | ?f _ => head_of f
  | _ => t
  end.

Ltac hoare_step side extra :=
  lazymatch goal with
  | |- hoare _ (train_step _ _ _ _ _ _ _ _ _ _) _ =>
      first [ solve [extra] | unfold train_step ]
  | |- forall _, _ => intro
  | |- hoare _ (bind _ _) _ => apply hoare_bind
  | |- hoare _ (ret _) _ => apply hoare_ret
  | |- hoare _ (mapM _ _) _ => apply hoare_mapM
  | |- hoare _ (for_each _ _) _ => apply hoare_for_each
  | |- hoare _ get_self _ => apply hoare_get_self
  | |- hoare _ get_state _ => apply hoare_get_state
  | |- hoare _ (call _ ?o) _ => apply (hoare_call o); side
  | |- hoare _ (print _) _ => apply hoare_print; side
  | |- hoare _ (raise _) _ => apply hoare_raise; side
  | |- hoare _ (sys_exit _) _ => apply hoare_sys_exit; side
  | |- hoare _ (attr _) _ => apply hoare_attr; side
  | |- hoare _ (modify_self _) _ => apply hoare_modify_self; side
  | |- hoare _ (modify_state _) _ => apply hoare_modify_state; side
  | |- hoare _ (no_grad _ _ _) _ => apply hoare_no_grad; [side | side | side |]
  | |- hoare _ (build_res _ _ _) _ => extra
  | |- hoare _ (if ?b then _ else _) _ => destruct b
  | |- hoare _ (match ?x with _ => _ end) _ => destruct x
  | |- hoare _ ?m _ =>
      first [ solve [extra] | let h := head_of m in unfold h ]
  end.

Ltac hoare_walk side extra := repeat (hoare_step side extra); cbv beta zeta.

(* ================================================================== *)
(** * The configuration is read-only *)
(* ================================================================== *)

Lemma fixed_build_res c pairs res :
  hoare (fun st => fixed_attributes (self st) = c)
        (build_res fw pairs res)
        (fun _ st => fixed_attributes (self st) = c).
Proof.
  revert res. induction pairs as [| [target output] rest IH]; intros res;
    cbn [build_res].
  - apply hoare_ret.
  - hoare_walk ltac:(auto) ltac:(apply IH).
Qed.

Lemma fixed_init c :
  hoare (fun st => fixed_attributes (self st) = c) (init fw)
        (fun _ st => fixed_attributes (self st) = c).
Proof. hoare_walk ltac:(auto) ltac:(apply fixed_build_res). Qed.

Lemma fixed_evaluate c m dl dev :
  hoare (fun st => fixed_attributes (self st) = c)
        (evaluate fw grad_off grad_restore m dl dev)
        (fun _ st => fixed_attributes (self st) = c).
Proof. hoare_walk ltac:(auto) ltac:(apply fixed_build_res). Qed.

Lemma fixed_train_one_epoch c tdl edl :
  hoare (fun st => fixed_attributes (self st) = c)
        (train_one_epoch fw grad_off grad_restore tdl edl)
        (fun _ st => fixed_attributes (self st) = c).
Proof. hoare_walk ltac:(auto) ltac:(apply fixed_build_res). Qed.

(** C7.  No method of [Trainer] writes the configuration: whatever the
    framework answers and however the method ends (return, exception or
    exit), [self.config] (every field of it) is the same after [init],
    [train_one_epoch] and [evaluate] as before; so are [self.driver],
    [self.adapter] and [self.device]. *)
Theorem config_is_read_only (tdl edl : DataLoader) (m dev : Obj) (st : State) :
  fixed_attributes (self (snd (init fw st))) = fixed_attributes (self st) /\
  fixed_attributes (self (snd (train_one_epoch fw grad_off grad_restore tdl edl st)))
    = fixed_attributes (self st) /\
  fixed_attributes (self (snd (evaluate fw grad_off grad_restore m edl dev st)))
    = fixed_attributes (self st).
Proof.
  repeat split.
  - exact (hoare_final _ _ _ st (fixed_init _) eq_refl).
  - exact (hoare_final _ _ _ st (fixed_train_one_epoch _ tdl edl) eq_refl).
  - exact (hoare_final _ _ _ st (fixed_evaluate _ m edl dev) eq_refl).
Qed.

Lemma wp_get_self (Qr : Trainer -> State -> Prop) Qa st :
  Qr (self st) st -> wp get_self Qr Qa st.
Proof. exact (fun H => H). Qed.

Lemma wp_get_state (Qr : TrainingState -> State -> Prop) Qa st :
  Qr (ts st) st -> wp get_state Qr Qa st.
Proof. exact (fun H => H). Qed.

Lemma wp_modify_self f (Qr : unit -> State -> Prop) Qa st :
  Qr tt (with_self (f (self st)) st) -> wp (modify_self f) Qr Qa st.
Proof. exact (fun H => H). Qed.

Lemma wp_modify_state f (Qr : unit -> State -> Prop) Qa st :
  Qr tt (with_ts (f (ts st)) st) -> wp (modify_state f) Qr Qa st.
Proof. exact (fun H => H). Qed.

Lemma wp_print p (Qr : unit -> State -> Prop) Qa st :
  Qr tt (log (EvPrint p) st) -> wp (print p) Qr Qa st.
Proof. exact (fun H => H). Qed.

Lemma wp_raise A e (Qr : A -> State -> Prop) Qa st :
  Qa (Raising e) (log (EvRaise e) st) -> wp (raise e) Qr Qa st.
Proof. exact (fun H => H). Qed.

Lemma wp_sys_exit A c (Qr : A -> State -> Prop) Qa st :
  Qa (Exiting c) (log (EvExit c) st) -> wp (sys_exit c) Qr Qa st.
Proof. exact (fun H => H). Qed.

Lemma wp_attr A (f : Trainer -> option A) (Qr : A -> State -> Prop) Qa st :
  match f (self st) with
  | Some a => Qr a st
  | None => Qa (Raising AttributeError) (log (EvRaise AttributeError) st)
  end ->
  wp (attr f) Qr Qa st.
Proof. unfold wp, attr. destruct (f (self st)); auto. Qed.

(** Symbolic execution of one call, naming what it returns. *)
Ltac call_as a w :=
  lazymatch goal with
  | |- wp (call _ ?o) _ _ _ =>
      apply (wp_call o);
      lazymatch goal with
      | |- match ?x with _ => _ end => destruct x as [a w | ? w]
      end
  end; cbv beta zeta.

(** One step of symbolic execution: every call splits into the branch
    where the framework answers and the branch where it raises. *)
Ltac wp_step :=
  lazymatch goal with
  | |- wp (bind _ _) _ _ _ => apply wp_bind
  | |- wp (ret _) _ _ _ => apply wp_ret
  | |- wp (call _ ?o) _ _ _ =>
      apply (wp_call o);
      lazymatch goal with
      | |- match ?x with _ => _ end =>
          let a := fresh "a" in let w := fresh "w" in let e := fresh "e" in
          destruct x as [a w | e w]
      end
  | |- wp get_self _ _ _ => apply wp_get_self
  | |- wp get_state _ _ _ => apply wp_get_state
  | |- wp (modify_self _) _ _ _ => apply wp_modify_self
  | |- wp (modify_state _) _ _ _ => apply wp_modify_state
  | |- wp (print _) _ _ _ => apply wp_print
  | |- wp (raise _) _ _ _ => apply wp_raise
  | |- wp (sys_exit _) _ _ _ => apply wp_sys_exit
  | |- wp (no_grad _ _ _) _ _ _ => apply wp_no_grad
  | |- wp (attr ?f) _ _ _ =>
      apply wp_attr;
      lazymatch goal with
      | |- match ?x with _ => _ end =>
          let E := fresh "Eattr" in destruct x eqn:E
      end
  | |- wp (for_each _ _) _ _ _ => fail
  | |- wp (mapM _ _) _ _ _ => fail
  | |- wp (build_res _ _ _) _ _ _ => fail
  | |- wp (if ?b then _ else _) _ _ _ =>
      let E := fresh "Eif" in destruct b eqn:E
  | |- wp (match ?x with _ => _ end) _ _ _ =>
      let E := fresh "Ematch" in destruct x eqn:E
  | |- wp ?m _ _ _ => let h := head_of m in unfold h
  end; cbv beta zeta.

Ltac wp_walk := repeat wp_step.

Ltac simpl_state :=
  cbn [self ts world trace log with_world with_ts with_self
       epoch num_trained_samples pure_compute_time no_eval_time eval_mAP
       end_training converged
       set_num_trained_samples set_pure_compute_time set_no_eval_time
       set_eval_mAP set_end_training set_converged converged_success
       driver adapter device config evaluator model optimizer lr_scheduler
       set_model set_optimizer set_lr_scheduler set_evaluator
       fst snd] in *.

(* ================================================================== *)
(** * The termination flags *)
(* ================================================================== *)

Ltac flags_side :=
  unfold flags_at in *; intros; simpl_state; intuition auto.

Ltac flags_leaf :=
  unfold flags_at in *; simpl_state;
  repeat match goal with H : _ /\ _ |- _ => destruct H end;
  repeat split;
  try congruence;
  repeat match goal with
         | |- context [float_ge ?a ?b] => destruct (float_ge a b) eqn:?
         end;
  repeat match goal with
         | |- context [?a >=? ?b] => destruct (a >=? b) eqn:?
         end;
  rewrite ?orb_true_r, ?orb_false_r; congruence.

Lemma flags_build_res e c mAP cv et pairs res :
  hoare (flags_at e c mAP cv et) (build_res fw pairs res)
        (fun _ st => flags_at e c (eval_mAP (ts st)) cv et st).
Proof.
  revert res. induction pairs as [| [target output] rest IH]; intros res;
    cbn [build_res].
  - apply hoare_ret.
  - hoare_walk flags_side ltac:(apply IH).
Qed.

(** Inside a symbolic execution, cross a sub-program that keeps the
    invariant [H : J st]: the state is forgotten, the invariant is kept. *)
Ltac frame H side extra :=
  lazymatch type of H with
  | ?J ?st =>
      lazymatch goal with
      | |- wp ?m _ _ st =>
          eapply (wp_hoare _ m J);
          [ solve [hoare_walk side extra]
          | exact H
          | let H' := fresh H "_old" in rename H into H'; intros ? ? H ]
      end
  end; cbv beta zeta.

(** Symbolic execution that reads and writes attributes explicitly and
    crosses everything else with the invariant [H]. *)
Ltac frame_step H side extra :=
  lazymatch goal with
  | |- wp (bind _ _) _ _ _ => apply wp_bind
  | |- wp (ret _) _ _ _ => apply wp_ret
  | |- wp get_self _ _ _ => apply wp_get_self
  | |- wp get_state _ _ _ => apply wp_get_state
  | |- wp (attr ?f) _ _ _ =>
      apply wp_attr;
      lazymatch goal with
      | |- match ?x with _ => _ end =>
          let E := fresh "Eattr" in destruct x eqn:E
      end
  | |- wp (modify_self _) _ _ _ => frame H side extra
  | |- wp (modify_state _) _ _ _ => frame H side extra
  | |- wp (call _ _) _ _ _ => frame H side extra
  | |- wp (print _) _ _ _ => frame H side extra
  | |- wp (raise _) _ _ _ => frame H side extra
  | |- wp (sys_exit _) _ _ _ => frame H side extra
  | |- wp (for_each _ _) _ _ _ => frame H side extra
  | |- wp (mapM _ _) _ _ _ => frame H side extra
  | |- wp (evaluate _ _ _ _ _ _) _ _ _ => frame H side extra
  | |- wp (if ?b then _ else _) _ _ _ =>
      first [ frame H side extra
            | let E := fresh "Eif" in destruct b eqn:E ]
  | |- wp (match ?x with _ => _ end) _ _ _ =>
      first [ frame H side extra
            | let E := fresh "Ematch" in destruct x eqn:E ]
  | |- wp ?m _ _ _ => let h := head_of m in unfold h
  end; cbv beta zeta.

(** After an explicit step, state the invariant [J] of the state reached
    and forget how it was reached. *)
Tactic Notation "restate" ident(H) uconstr(J) tactic3(side) :=
  lazymatch goal with
  | |- wp _ _ _ ?s =>
      let H' := fresh H "_old" in
      rename H into H';
      assert (H : J s) by side;
      revert H; generalize s; intros ? H
  end.

(** What a call of [train_one_epoch] does to the flags. *)
Lemma flags_train_one_epoch tdl edl st :
  wp (train_one_epoch fw grad_off grad_restore tdl edl)
     (fun _ st' =>
        flags_at (epoch (ts st)) (config (self st)) (eval_mAP (ts st'))
          (converged (ts st)
           || float_ge (eval_mAP (ts st')) (target_mAP (config (self st))))
          (end_training (ts st)
           || (epoch (ts st) >=? max_epoch (config (self st))))
          st')
     (fun _ st' =>
        flags_at (epoch (ts st)) (config (self st)) (eval_mAP (ts st'))
          (converged (ts st)) (end_training (ts st)) st')
     st.
Proof.
  assert (HJ : flags_at (epoch (ts st)) (config (self st)) (eval_mAP (ts st))
                 (converged (ts st)) (end_training (ts st)) st)
    by flags_side.
  revert HJ.
  generalize (epoch (ts st)) (config (self st)) (converged (ts st))
             (end_training (ts st)) (eval_mAP (ts st)).
  intros e c cv et m0 HJ.
  unfold train_one_epoch, train_batches.
  repeat frame_step HJ flags_side ltac:(apply flags_build_res);
    try solve [flags_side].
  apply wp_modify_state.
  restate HJ (flags_at e c a13 cv et) flags_side.
  cbn [fst snd].
  repeat frame_step HJ flags_side ltac:(apply flags_build_res);
    try solve [flags_side].
  all: wp_walk; flags_leaf.
Qed.

Lemma flags_after tdl edl st :
  let r := train_one_epoch fw grad_off grad_restore tdl edl st in
  flags_at (epoch (ts st)) (config (self st)) (eval_mAP (ts (snd r)))
    (converged (ts st)
     || (returned (fst r)
         && float_ge (eval_mAP (ts (snd r))) (target_mAP (config (self st)))))
    (end_training (ts st)
     || (returned (fst r) && (epoch (ts st) >=? max_epoch (config (self st)))))
    (snd r).
Proof.
  intros r. pose proof (flags_train_one_epoch tdl edl st) as H.
  unfold wp in H. fold r in H.
  destruct r as [[[] | e | c] st']; cbn [fst snd returned andb];
    rewrite ?orb_false_r; exact H.
Qed.

(** C1.  Whatever the framework answers, after a call of
    [train_one_epoch] the converged flag is true exactly when it was true
    before the call, or the call returned and the metric it stored in
    [state.eval_mAP] is at least [config.target_mAP] (Python's [>=] on
    floats).  So, from a state where the flag is false, a call that
    returns leaves it true if and only if the metric meets the target. *)
Theorem converged_iff_target_met (tdl edl : DataLoader) (st : State) :
  let r := train_one_epoch fw grad_off grad_restore tdl edl st in
  converged (ts (snd r))
  = converged (ts st)
    || (returned (fst r)
        && float_ge (eval_mAP (ts (snd r))) (target_mAP (config (self st)))).
Proof. intros r. apply (flags_after tdl edl st). Qed.

(** C2.  Whatever the framework answers, after a call of
    [train_one_epoch] the end-of-training flag is true exactly when it
    was true before the call, or the call returned and the epoch counter
    is at least [config.max_epoch]; the call leaves the epoch counter as
    it was.  So the flag is set once the counter has reached the maximum
    and is left alone below it. *)
Theorem end_training_at_max_epoch (tdl edl : DataLoader) (st : State) :
  let r := train_one_epoch fw grad_off grad_restore tdl edl st in
  end_training (ts (snd r))
  = end_training (ts st)
    || (returned (fst r) && (epoch (ts st) >=? max_epoch (config (self st))))
  /\ epoch (ts (snd r)) = epoch (ts st).
Proof.
  intros r. destruct (flags_after tdl edl st) as (He & _ & _ & _ & Het).
  split; [exact Het | exact He].
Qed.

(** C8.  The two flags only ever go from false to true: once one of them
    is set, it stays set through every later call of [train_one_epoch],
    whatever metric those calls read and wherever the epoch counter is
    moved between them. *)
Theorem flags_are_one_way (st st' : State) :
  later fw grad_off grad_restore st st' ->
  (converged (ts st) = true -> converged (ts st') = true) /\
  (end_training (ts st) = true -> end_training (ts st') = true).
Proof.
  induction 1 as [st | st tdl edl st' _ IH | st e st' _ IH].
  - auto.
  - destruct (flags_after tdl edl st) as (_ & _ & _ & Hcv & Het).
    destruct IH as [IHc IHe]. split; intros Hs.
    + apply IHc. rewrite Hcv, Hs. reflexivity.
    + apply IHe. rewrite Het, Hs. reflexivity.
  - exact IH.
Qed.

(* ================================================================== *)
(** * The sample count and the timing accumulators *)
(* ================================================================== *)

Ltac samples_side :=
  unfold samples_at in *; intros; simpl_state; auto; congruence.

Lemma samples_build_res n pairs res :
  hoare (samples_at n) (build_res fw pairs res) (fun _ _ => True).
Proof.
  revert res. induction pairs as [| [target output] rest IH]; intros res;
    cbn [build_res].
  - apply hoare_ret.
  - hoare_walk samples_side ltac:(apply IH).
Qed.

Lemma samples_train_one_epoch tdl edl st :
  wp (train_one_epoch fw grad_off grad_restore tdl edl)
     (fun _ st' =>
        samples_at (num_trained_samples (ts st) + dl_dataset_len tdl) st')
     (fun _ _ => True) st.
Proof.
  assert (HJ : samples_at (num_trained_samples (ts st)) st) by reflexivity.
  revert HJ. generalize (num_trained_samples (ts st)). intros n HJ.
  unfold train_one_epoch, train_batches.
  repeat frame_step HJ samples_side ltac:(apply samples_build_res);
    try exact I.
  apply wp_modify_state.
  restate HJ (samples_at (n + dl_dataset_len tdl)) samples_side.
  repeat frame_step HJ samples_side ltac:(apply samples_build_res);
    try exact I; assumption.
Qed.

Lemma clock_watch_log e st :
  clock_watch (log e st) = clock_step (clock_watch st) e.
Proof. unfold clock_watch, observe; cbn. apply fold_left_app. Qed.

Lemma clock_watch_with_world w st : clock_watch (with_world w st) = clock_watch st.
Proof. reflexivity. Qed.

Lemma clock_watch_with_ts s st : clock_watch (with_ts s st) = clock_watch st.
Proof. reflexivity. Qed.

Lemma clock_watch_with_self t st : clock_watch (with_self t st) = clock_watch st.
Proof. reflexivity. Qed.

Ltac watch_simpl :=
  repeat first
    [ rewrite clock_watch_log
    | rewrite clock_watch_with_world
    | rewrite clock_watch_with_ts
    | rewrite clock_watch_with_self ].

Lemma since_later marks l t :
  since marks (Some l) -> (l <= t)%Q -> since marks (Some t).
Proof.
  induction marks as [| m marks IH]; cbn; [auto |].
  intros [H1 H2] Hle. split; [eapply Qle_trans; eassumption | auto].
Qed.

Lemma timing_read p n marks t w st :
  timing p n marks st ->
  timing p n (t :: marks)
    (log (EvReturn TimeTime t) (with_world w (log (EvCall TimeTime) st))).
Proof.
  unfold timing, clock_steady. intros H.
  watch_simpl.
  destruct (clock_watch st) as [last ok]; cbn in *.
  intros Hok. apply andb_prop in Hok as [Hok Hle].
  destruct (H Hok) as (Hp & Hn & Hs). repeat split; auto using Qle_refl.
  destruct last as [l |].
  - apply Qle_bool_iff in Hle. eapply since_later; eassumption.
  - destruct marks; [exact I | destruct Hs as [[] _]].
Qed.

Lemma timing_drop p n t marks st :
  timing p n (t :: marks) st -> timing p n marks st.
Proof. unfold timing; cbn; intuition. Qed.

Lemma timing_call p n marks o a w st :
  timing p n marks st ->
  timing p n marks (log (EvReturn o a) (with_world w (log (EvCall o) st))).
Proof.
  intros H. destruct (reading (FwExn := FwExn) (EvReturn o a)) as [t |] eqn:E.
  - destruct o; try discriminate E. cbn in E. injection E as ->.
    apply timing_drop with (t := t). apply timing_read. exact H.
  - unfold timing, clock_steady in *.
    watch_simpl.
    unfold clock_step. rewrite E. cbn [reading]. exact H.
Qed.

Lemma timing_event p n marks e st :
  reading e = None -> timing p n marks st -> timing p n marks (log e st).
Proof.
  intros E H. unfold timing, clock_steady in *.
  rewrite clock_watch_log. unfold clock_step. rewrite E. exact H.
Qed.

Ltac timing_side :=
  intros;
  first
    [ exact I
    | apply timing_call; assumption
    | apply timing_event; [reflexivity | assumption]
    | apply timing_event; [reflexivity |]; apply timing_event;
      [reflexivity | assumption]
    | assumption ].

Lemma timing_pure_compute p n t0 marks t w st st' :
  timing p n (t0 :: marks) st ->
  st' = log (EvReturn TimeTime t) (with_world w (log (EvCall TimeTime) st)) ->
  timing p n marks
    (with_ts
       (set_pure_compute_time (pure_compute_time (ts st') + (t - t0))%Q (ts st'))
       st').
Proof.
  intros H ->. apply timing_read with (t := t) (w := w) in H.
  unfold timing, clock_steady in *. revert H. watch_simpl.
  destruct (clock_watch st) as [last ok]. simpl_state. cbn.
  intros H Hok. destruct (H Hok) as (Hp & Hn & _ & (Hle & Hs)).
  repeat split; auto. lra.
Qed.

Lemma timing_no_eval p n t0 marks t w st st' :
  timing p n (t0 :: marks) st ->
  st' = log (EvReturn TimeTime t) (with_world w (log (EvCall TimeTime) st)) ->
  timing p n marks
    (with_ts
       (set_no_eval_time (no_eval_time (ts st') + (t - t0))%Q (ts st'))
       st').
Proof.
  intros H ->. apply timing_read with (t := t) (w := w) in H.
  unfold timing, clock_steady in *. revert H. watch_simpl.
  destruct (clock_watch st) as [last ok]. simpl_state. cbn.
  intros H Hok. destruct (H Hok) as (Hp & Hn & _ & (Hle & Hs)).
  repeat split; auto. lra.
Qed.

(** Symbolic execution up to the next reading of the clock. *)
Ltac not_clock :=
  lazymatch goal with
  | |- wp (call _ TimeTime) _ _ _ => fail
  | _ => idtac
  end.

Ltac to_clock H side extra :=
  repeat (not_clock; frame_step H side extra).

(** Read the clock; the branch where the reading raises is closed. *)
Ltac read_clock :=
  apply (wp_call TimeTime);
  lazymatch goal with
  | |- match ?x with _ => _ end =>
      let t := fresh "t" in let w := fresh "w" in
      destruct x as [t w | ? w]; [| exact I]
  end.

(** Read the clock and remember the reading as a mark. *)
Ltac mark_clock H :=
  read_clock;
  lazymatch type of H with
  | timing ?p ?n ?marks _ =>
      lazymatch goal with
      | |- wp _ _ _ (log (EvReturn TimeTime ?t) _) =>
          restate H (timing p n (t :: marks)) ltac:(apply timing_read; assumption)
      end
  end.

Lemma timing_build_res p n marks pairs res :
  hoare (timing p n marks) (build_res fw pairs res) (fun _ _ => True).
Proof.
  revert res. induction pairs as [| [target output] rest IH]; intros res;
    cbn [build_res].
  - apply hoare_ret.
  - hoare_walk timing_side ltac:(apply IH).
Qed.

Lemma timing_train_step p n a1 m opt dl dev warmup ml freq h i :
  hoare (timing p n [a1]) (train_step fw m opt dl dev warmup ml freq h i)
        (fun _ _ => True).
Proof.
  apply hoare_wp. intros st HJ. unfold train_step.
  to_clock HJ timing_side ltac:(apply timing_build_res); try exact I.
  mark_clock HJ.
  to_clock HJ timing_side ltac:(apply timing_build_res); try exact I.
  read_clock. apply wp_modify_state. cbv beta.
  eapply timing_pure_compute; [exact HJ | reflexivity].
Qed.

Ltac timing_known :=
  first [ apply timing_build_res | apply timing_train_step ].

(** What a call of [train_one_epoch] does to the timing accumulators. *)
Lemma timing_train_one_epoch tdl edl st :
  wp (train_one_epoch fw grad_off grad_restore tdl edl)
     (fun _ st' =>
        timing (pure_compute_time (ts st)) (no_eval_time (ts st)) [] st')
     (fun _ _ => True) (fresh st).
Proof.
  assert (HJ : timing (pure_compute_time (ts st)) (no_eval_time (ts st)) []
                      (fresh st)).
  { intros _. cbn. auto using Qle_refl. }
  revert HJ.
  generalize (pure_compute_time (ts st)) (no_eval_time (ts st)) (fresh st).
  clear st. intros p n st HJ.
  unfold train_one_epoch, train_batches.
  to_clock HJ timing_side timing_known; try exact I.
  mark_clock HJ.
  to_clock HJ timing_side timing_known; try exact I.
  read_clock. apply wp_bind, wp_modify_state. cbv beta.
  restate HJ (timing p n (@nil Q))
    ltac:(eapply timing_no_eval; [eassumption | reflexivity]).
  cbv beta.
  to_clock HJ timing_side timing_known; try exact I.
  assumption.
Qed.

(** C5, as the code has it.  A call of [train_one_epoch] that returns
    has added exactly [len(data_loader.dataset)] to the cumulative sample
    count; and if no reading of the clock during the call was lower than
    the reading before it, neither timing accumulator has decreased. *)
Theorem epoch_counts_samples_and_time (tdl edl : DataLoader) (st : State) :
  let r := train_one_epoch fw grad_off grad_restore tdl edl (fresh st) in
  returned (fst r) = true ->
  num_trained_samples (ts (snd r))
  = num_trained_samples (ts st) + dl_dataset_len tdl /\
  (clock_steady (snd r) = true ->
   (pure_compute_time (ts st) <= pure_compute_time (ts (snd r)))%Q /\
   (no_eval_time (ts st) <= no_eval_time (ts (snd r)))%Q).
Proof.
  intros r Hret.
  pose proof (samples_train_one_epoch tdl edl (fresh st)) as Hs.
  pose proof (timing_train_one_epoch tdl edl st) as Ht.
  unfold wp in Hs, Ht. fold r in Hs, Ht.
  destruct r as [[[] | e | c] st']; try discriminate Hret.
  cbn [fst snd]. split; [exact Hs |].
  intros Hok. destruct (Ht Hok) as (Hp & Hn & _). split; assumption.
Qed.

(* ================================================================== *)
(** * Exceptions leave the methods *)
(* ================================================================== *)

Lemma project_log X (f : Ev -> list X) e st :
  project f (log e st) = project f st ++ f e.
Proof.
  unfold project; cbn. rewrite flat_map_app. cbn. now rewrite app_nil_r.
Qed.

Lemma project_with_world X (f : Ev -> list X) w st :
  project f (with_world w st) = project f st.
Proof. reflexivity. Qed.

Lemma project_with_ts X (f : Ev -> list X) s st :
  project f (with_ts s st) = project f st.
Proof. reflexivity. Qed.

Lemma project_with_self X (f : Ev -> list X) t st :
  project f (with_self t st) = project f st.
Proof. reflexivity. Qed.

Ltac project_simpl :=
  repeat first
    [ rewrite project_log
    | rewrite project_with_world
    | rewrite project_with_ts
    | rewrite project_with_self ].

Ltac quiet_side :=
  unfold quiet, thrown in *; intros; project_simpl; cbn [raised leaving];
  rewrite ?app_nil_r; try congruence; auto.

Lemma quiet_build_res base pairs res :
  hoare (quiet base) (build_res fw pairs res) (thrown base).
Proof.
  revert res. induction pairs as [| [target output] rest IH]; intros res;
    cbn [build_res].
  - apply hoare_ret.
  - hoare_walk quiet_side ltac:(apply IH).
Qed.

Lemma quiet_evaluate base m dl dev :
  hoare (quiet base) (evaluate fw grad_off grad_restore m dl dev) (thrown base).
Proof. hoare_walk quiet_side ltac:(apply quiet_build_res). Qed.

Lemma quiet_train_one_epoch base tdl edl :
  hoare (quiet base) (train_one_epoch fw grad_off grad_restore tdl edl)
        (thrown base).
Proof. hoare_walk quiet_side ltac:(apply quiet_build_res). Qed.

Lemma quiet_outcome A (m : Prog A) st :
  hoare (quiet (project raised st)) m (thrown (project raised st)) ->
  project raised (snd (m st)) = project raised st ++ escaping (fst (m st)).
Proof.
  intros H. specialize (H st eq_refl). unfold wp in H.
  destruct (m st) as [[a | e | c] st']; cbn [fst snd escaping];
    unfold quiet, thrown in H; cbn [leaving] in H;
    rewrite ?app_nil_r in *; exact H.
Qed.

(** C6.  [train_one_epoch] and [evaluate] handle no exception.  Every
    exception raised while they run (by any call into the framework: the
    data loader, the forward and backward pass, the reductions and
    synchronisations across ranks; or by the method's own attribute,
    index and key lookups) is logged where it is raised, and the
    exceptions logged during a call are exactly the one that leaves it:
    none if the call returns or exits, the single exception [e] if the
    call ends with [e]. *)
Theorem exceptions_propagate (tdl edl : DataLoader) (m dev : Obj) (st : State) :
  (let r := train_one_epoch fw grad_off grad_restore tdl edl st in
   project raised (snd r) = project raised st ++ escaping (fst r)) /\
  (let r := evaluate fw grad_off grad_restore m edl dev st in
   project raised (snd r) = project raised st ++ escaping (fst r)).
Proof.
  split; intros r; subst r; apply quiet_outcome.
  - apply quiet_train_one_epoch.
  - apply quiet_evaluate.
Qed.

(* ================================================================== *)
(** * A non-finite loss stops the process *)
(* ================================================================== *)

Lemma loss_watch_log e st : loss_watch (log e st) = loss_step (loss_watch st) e.
Proof. unfold loss_watch, observe; cbn. apply fold_left_app. Qed.

Lemma loss_watch_with_world w st : loss_watch (with_world w st) = loss_watch st.
Proof. reflexivity. Qed.

Lemma loss_watch_with_ts s st : loss_watch (with_ts s st) = loss_watch st.
Proof. reflexivity. Qed.

Lemma loss_watch_with_self t st : loss_watch (with_self t st) = loss_watch st.
Proof. reflexivity. Qed.

Ltac loss_simpl :=
  repeat first
    [ rewrite loss_watch_log
    | rewrite loss_watch_with_world
    | rewrite loss_watch_with_ts
    | rewrite loss_watch_with_self ].

Ltac loss_side :=
  unfold halting, raising_only, stopped, sound in *; intros;
  try match goal with ab : Stop |- _ => destruct ab end;
  loss_simpl;
  repeat match goal with
         | H : loss_watch ?s = _ |- context [loss_watch ?s] => rewrite H
         | H : match loss_watch ?s with _ => _ end
           |- context [loss_watch ?s] =>
             destruct (loss_watch s) eqn:?; [| contradiction]
         end;
  cbn [loss_step nonfinite_loss reduced];
  repeat match goal with
         | H : isfinite ?v = _ |- context [isfinite ?v] => rewrite H
         end;
  cbn [loss_step nonfinite_loss reduced app];
  eauto.

Lemma sound_build_res pairs res :
  hoare sound (build_res fw pairs res) raising_only.
Proof.
  revert res. induction pairs as [| [target output] rest IH]; intros res;
    cbn [build_res].
  - apply hoare_ret.
  - hoare_walk loss_side ltac:(apply IH).
Qed.

Lemma sound_evaluate m dl dev :
  hoare sound (evaluate fw grad_off grad_restore m dl dev) halting.
Proof.
  apply hoare_conseq with (Qa := raising_only).
  - hoare_walk loss_side ltac:(apply sound_build_res).
  - intros [e | c] st; cbn; [auto | contradiction].
Qed.

Ltac reduced_side := unfold reduced_to in *; loss_side.

(** Symbolic execution up to the reduction of the loss dictionary. *)
Ltac not_reduce :=
  lazymatch goal with
  | |- wp (call _ (ReduceDict _)) _ _ _ => fail
  | |- wp (call _ (Item _)) _ _ _ => fail
  | _ => idtac
  end.

Ltac to_loss H side extra :=
  repeat (not_reduce; frame_step H side extra).

Lemma sound_train_step m opt dl dev warmup ml freq h i :
  hoare sound (train_step fw m opt dl dev warmup ml freq h i) halting.
Proof.
  apply hoare_wp. intros st HJ. unfold train_step.
  to_loss HJ loss_side ltac:(fail);
    try solve [loss_side].
  call_as d w; [| solve [loss_side]].
  restate HJ (reduced_to d) reduced_side.
  to_loss HJ reduced_side ltac:(fail);
    try solve [reduced_side].
  call_as v w'; [| solve [reduced_side]].
  apply wp_bind. unfold check_loss.
  destruct (isfinite v) eqn:Efin; cbn [negb].
  - apply wp_ret.
    restate HJ sound reduced_side.
    to_loss HJ loss_side ltac:(fail);
      try solve [loss_side].
  - wp_walk. reduced_side.
Qed.

Ltac sound_known :=
  first [ apply sound_evaluate | apply sound_train_step ].

Lemma sound_train_one_epoch tdl edl :
  hoare sound (train_one_epoch fw grad_off grad_restore tdl edl) halting.
Proof. hoare_walk loss_side sound_known. Qed.

Lemma fresh_sound st : sound (fresh st).
Proof. exact I. Qed.

(** C3.  Watch a call of [train_one_epoch] from its start.  If some
    step reads a non-finite reduced loss [v] ([math.isfinite] is false:
    NaN or an infinity), then everything that happens after that reading
    is: print [v], print the reduced loss dictionary of that step, exit
    with status 1; the call ends as that exit, so neither the backward
    pass of that step nor any later call into the framework happens.  If
    no step reads a non-finite loss, the call does not exit. *)
Theorem nonfinite_loss_stops_training (tdl edl : DataLoader) (st : State) :
  let r := train_one_epoch fw grad_off grad_restore tdl edl (fresh st) in
  match loss_watch (snd r) with
  | Sound _ => forall c, fst r <> Exited c
  | Unsound v d since_then =>
      fst r = Exited 1 /\
      exists loss_dict_reduced,
        d = Some loss_dict_reduced /\
        since_then = [EvPrint (PrLossStop v);
                      EvPrint (PrDict loss_dict_reduced);
                      EvExit 1]
  end.
Proof.
  intros r.
  pose proof (sound_train_one_epoch tdl edl (fresh st) (fresh_sound st)) as H.
  unfold wp in H. fold r in H.
  destruct r as [[[] | e | c] st']; cbn [fst snd];
    unfold halting, stopped, sound in H.
  - destruct (loss_watch st'); [discriminate | contradiction].
  - destruct (loss_watch st'); [discriminate | contradiction].
  - destruct H as [-> H]. destruct (loss_watch st'); [contradiction |].
    split; [reflexivity | exact H].
Qed.

(* ================================================================== *)
(** * The order of an epoch *)
(* ================================================================== *)

Lemma wp_for_each_seq (J : nat -> State -> Prop) (body : nat -> Prog unit)
    (Qr : unit -> State -> Prop) Qa n :
  forall k st,
  J k st ->
  (forall i st', J i st' -> wp (body i) (fun _ st'' => J (S i) st'') Qa st') ->
  (forall st', J (k + n)%nat st' -> Qr tt st') ->
  wp (for_each (seq k n) body) Qr Qa st.
Proof.
  induction n as [| n IH]; intros k st HJ Hbody Hend; cbn [seq for_each].
  - apply wp_ret, Hend. now rewrite Nat.add_0_r.
  - apply wp_bind. eapply wp_conseq; [exact (Hbody k st HJ) | | auto].
    intros [] st' HJ'. apply (IH (S k) st' HJ' Hbody).
    intros st'' H. apply Hend. now rewrite Nat.add_succ_r.
Qed.

Lemma flat_map_seq_S X (f : nat -> list X) n :
  flat_map f (seq 0 (S n)) = flat_map f (seq 0 n) ++ f n.
Proof.
  rewrite seq_S, flat_map_app. cbn. now rewrite app_nil_r.
Qed.

Lemma flat_map_repeat X (x : X) k n :
  flat_map (fun _ : nat => [x]) (seq k n) = repeat x n.
Proof.
  revert k. induction n as [| n IH]; intros k; cbn; [reflexivity |].
  now rewrite IH.
Qed.

Lemma flat_map_nothing X (k n : nat) :
  flat_map (fun _ : nat => @nil X) (seq k n) = [].
Proof.
  revert k. induction n as [| n IH]; intros k; cbn; auto.
Qed.

(** Steps that add nothing to the projection. *)
Ltac tracked_side :=
  unfold tracked in *; intros; project_simpl; simpl_state; cbn;
  rewrite ?app_nil_r;
  repeat match goal with H : _ /\ _ |- _ => destruct H end;
  first
    [ exact I
    | split;
      [ repeat match goal with
               | H : project _ _ = _ |- _ => rewrite H; clear H
               end;
        rewrite <- ?app_assoc; cbn [app]; reflexivity
      | congruence ]
    | congruence
    | auto ].

(** A stop: the projection so far is tracked and satisfies the goal. *)
Ltac aborted_leaf goal_tac :=
  intros;
  repeat match goal with
         | H : aborted _ _ _ _ _ |- _ => destruct H as (? & ? & ?)
         end;
  unfold aborted;
  eexists; split;
  [ unfold tracked in *; project_simpl; simpl_state; cbn;
    rewrite ?app_nil_r;
    repeat match goal with H : _ /\ _ |- _ => destruct H end;
    split;
    [ first [ eassumption
            | match goal with
              | H : project _ _ = _ |- _ => rewrite H; reflexivity
              end ]
    | congruence ]
  | goal_tac ].

(** Symbolic execution of one call; the projection of its two events is
    appended to the tracked list. *)
Ltac track_call H leaf :=
  lazymatch goal with
  | |- wp (call _ ?o) _ _ _ =>
      let a := fresh "a" in
      let w := fresh "w" in
      call_as a w; [| solve [leaf]];
      lazymatch type of H with
      | tracked ?f ?L ?sch _ =>
          let evs := eval cbn in (f (EvCall o) ++ f (EvReturn o a)) in
          lazymatch evs with
          | [] => restate H (tracked f L sch) tracked_side
          | _ => restate H (tracked f (L ++ evs) sch) tracked_side
          end
      end
  end.

Ltac track_step H side leaf extra :=
  lazymatch goal with
  | |- wp (bind _ _) _ _ _ => apply wp_bind
  | |- wp (ret _) _ _ _ => apply wp_ret
  | |- wp get_self _ _ _ => apply wp_get_self
  | |- wp get_state _ _ _ => apply wp_get_state
  | |- wp (attr ?f) _ _ _ =>
      apply wp_attr;
      lazymatch goal with
      | |- match ?x with _ => _ end =>
          let E := fresh "Eattr" in destruct x eqn:E; [| solve [leaf]]
      end
  | |- wp (call _ _) _ _ _ => track_call H leaf
  | |- wp (raise _) _ _ _ => apply wp_raise; solve [leaf]
  | |- wp (sys_exit _) _ _ _ => apply wp_sys_exit; solve [leaf]
  | |- wp (for_each _ (train_step _ _ _ _ _ _ _ _ _)) _ _ _ => fail
  | |- wp (evaluate _ _ _ _ _ _) _ _ _ => frame H side extra
  | |- wp (modify_self _) _ _ _ => frame H side extra
  | |- wp (modify_state _) _ _ _ => frame H side extra
  | |- wp (print _) _ _ _ => frame H side extra
  | |- wp (for_each _ _) _ _ _ => frame H side extra
  | |- wp (mapM _ _) _ _ _ => frame H side extra
  | |- wp (build_res _ _ _) _ _ _ => frame H side extra
  | |- wp (if ?b then _ else _) _ _ _ =>
      first [ frame H side extra
            | let E := fresh "Eif" in destruct b eqn:E ]
  | |- wp (match ?x with _ => _ end) _ _ _ =>
      first [ frame H side extra
            | let E := fresh "Ematch" in destruct x eqn:E ]
  | |- wp ?m _ _ _ => let h := head_of m in unfold h
  end; cbv beta zeta.

(** The side conditions of a walk whose steps add nothing to the
    projection: returning keeps [tracked], stopping gives [aborted]. *)
Ltac neutral_side :=
  first [ solve [tracked_side]
        | solve [aborted_leaf ltac:(assumption)] ].

Lemma schedule_build_res (G : list SchedulerEvent -> Prop) L sch pairs res :
  G L ->
  hoare (tracked schedule L sch) (build_res fw pairs res)
        (aborted schedule G sch).
Proof.
  intros HG.
  revert res. induction pairs as [| [target output] rest IH]; intros res;
    cbn [build_res].
  - apply hoare_ret.
  - hoare_walk neutral_side ltac:(apply IH).
Qed.

Lemma schedule_evaluate (G : list SchedulerEvent -> Prop) L sch m dl dev :
  G L ->
  hoare (tracked schedule L sch) (evaluate fw grad_off grad_restore m dl dev)
        (aborted schedule G sch).
Proof.
  intros HG.
  hoare_walk neutral_side ltac:(apply schedule_build_res; assumption).
Qed.

Lemma schedule_train_step (G : list SchedulerEvent -> Prop) L sch
    m opt dl dev warmup ml freq h i st :
  G L -> G (L ++ steps_of_warmup warmup) ->
  tracked schedule L sch st ->
  wp (train_step fw m opt dl dev warmup ml freq h i)
     (fun _ st' => tracked schedule (L ++ steps_of_warmup warmup) sch st')
     (aborted schedule G sch) st.
Proof.
  intros HG HG' HJ. unfold train_step, check_loss.
  repeat track_step HJ neutral_side ltac:(aborted_leaf ltac:(assumption))
                    ltac:(fail).
  all: cbn [steps_of_warmup]; rewrite ?app_nil_r; assumption.
Qed.

(** The goal of a stop inside [train_one_epoch]: what was added to the
    scheduler events since the call began is allowed by
    [later_schedule]. *)
Ltac sched_goal :=
  cbn [steps_of_warmup]; rewrite ?flat_map_nothing, ?app_nil_r;
  eexists; split;
  [ first [ rewrite <- ?app_assoc; reflexivity
          | symmetry; apply app_nil_r ]
  | unfold later_schedule; intros Hne;
    first
      [ left; reflexivity
      | right; eexists; split; [| reflexivity];
        unfold tracked in *;
        repeat match goal with H : _ /\ _ |- _ => destruct H end;
        congruence
      | exfalso; apply Hne;
        repeat match goal with
               | H : (_ =? 0) = true |- _ => apply Z.eqb_eq in H
               end;
        congruence ] ].

Ltac sched_side :=
  first [ solve [tracked_side] | solve [aborted_leaf sched_goal] ].

(** The training loop: after [j] steps the scheduler events are those
    before the loop and [j] times the steps of the warmup scheduler. *)
Ltac sched_loop H :=
  lazymatch goal with
  | |- wp (for_each _ (train_step _ _ _ _ _ ?W _ _ _)) _ _ _ =>
      lazymatch type of H with
      | tracked _ ?L ?sch _ =>
          eapply (wp_for_each_seq
                    (fun j st' =>
                       tracked schedule
                         (L ++ flat_map (fun _ : nat => steps_of_warmup W) (seq 0 j))
                         sch st'));
          [ cbn [seq flat_map]; rewrite app_nil_r; exact H
          | let HJ' := fresh "HJ'" in
            let Hx := fresh "Hx" in
            intros ? ? HJ'; eapply wp_post; cycle 1;
            [ eapply schedule_train_step; only 3: exact HJ'; sched_goal
            | cbv beta; intros ? ? Hx;
              rewrite flat_map_seq_S, app_assoc; exact Hx ]
          | cbn [Nat.add]; clear H; intros ? H ]
      end
  end.

(** The end of a walk that returned: name what was added, the optimizer
    and the scheduler; the shape of what was added is left to prove. *)
Ltac sched_done :=
  unfold tracked in *;
  repeat match goal with H : _ /\ _ |- _ => destruct H end;
  eexists _, _, _;
  split;
  [ match goal with
    | H : project _ ?s = _ |- project _ ?s = _ => rewrite H
    end;
    rewrite <- ?app_assoc; reflexivity
  | split; [symmetry; eassumption |];
    split;
    [ match goal with
      | H1 : lr_scheduler (self ?s) = Some _, H2 : lr_scheduler (self ?s) = ?l
        |- ?l = Some _ => rewrite <- H2; exact H1
      end
    | ] ].

Lemma schedule_train_one_epoch tdl edl base l0 e0 opt0 st :
  tracked schedule base l0 st ->
  epoch (ts st) = e0 ->
  optimizer (self st) = opt0 ->
  wp (train_one_epoch fw grad_off grad_restore tdl edl)
     (fun _ st' =>
        exists new opt sch,
          project schedule st' = base ++ new /\
          opt0 = Some opt /\ l0 = Some sch /\
          epoch_schedule e0 opt sch (dl_len tdl) new)
     (aborted schedule
        (fun L => exists new, L = base ++ new /\ later_schedule e0 l0 new)
        l0)
     st.
Proof.
  intros HJ He Hopt.
  unfold train_one_epoch, train_batches.
  repeat track_step HJ sched_side ltac:(aborted_leaf sched_goal)
                    ltac:(apply schedule_evaluate; sched_goal).
  - (* the first epoch: a warmup scheduler steps after every batch *)
    sched_loop HJ.
    repeat track_step HJ sched_side ltac:(aborted_leaf sched_goal)
                      ltac:(apply schedule_evaluate; sched_goal).
    sched_done.
    unfold epoch_schedule. rewrite <- He, Eif. eexists.
    cbn [app steps_of_warmup]. rewrite flat_map_repeat. reflexivity.
  - (* every later epoch: only the scheduler of the trainer steps *)
    sched_loop HJ.
    repeat track_step HJ sched_side ltac:(aborted_leaf sched_goal)
                      ltac:(apply schedule_evaluate; sched_goal).
    sched_done.
    unfold epoch_schedule. rewrite <- He, Eif.
    cbn [steps_of_warmup]. rewrite flat_map_nothing. reflexivity.
Qed.

(** C9.  The scheduler events of a call of [train_one_epoch]: the
    creation of a warmup scheduler, the scheduler it returned, and every
    [step()].  In an epoch whose counter is not 0, however the call ends,
    there is no creation and at most one step, that of
    [self.lr_scheduler].  When the call returns: in epoch 0 a warmup
    scheduler is created on the optimizer with
    [min(1000, len(data_loader) - 1)] warmup iterations and factor
    [1/1000], it steps once per mini-batch, and then [self.lr_scheduler]
    steps once; in any other epoch [self.lr_scheduler] steps once and
    nothing else happens to a scheduler. *)
Theorem warmup_only_in_first_epoch (tdl edl : DataLoader) (st : State) :
  let r := train_one_epoch fw grad_off grad_restore tdl edl st in
  exists new,
    project schedule (snd r) = project schedule st ++ new /\
    later_schedule (epoch (ts st)) (lr_scheduler (self st)) new /\
    (returned (fst r) = true ->
     exists opt sch,
       optimizer (self st) = Some opt /\ lr_scheduler (self st) = Some sch /\
       epoch_schedule (epoch (ts st)) opt sch (dl_len tdl) new).
Proof.
  intros r.
  pose proof (schedule_train_one_epoch tdl edl (project schedule st)
                (lr_scheduler (self st)) (epoch (ts st)) (optimizer (self st))
                st (conj eq_refl eq_refl) eq_refl eq_refl) as H.
  unfold wp in H. fold r in H.
  destruct r as [[[] | e | c] st']; cbn [fst snd returned].
  - destruct H as (new & opt & sch & Hp & Ho & Hs & He).
    exists new. split; [exact Hp |]. split.
    + intros Hne. unfold epoch_schedule in He.
      destruct (epoch (ts st) =? 0) eqn:E.
      * apply Z.eqb_eq in E. contradiction.
      * right. exists sch. split; assumption.
    + intros _. exists opt, sch. repeat split; assumption.
  - destruct H as (L & [HL _] & new & -> & Hl).
    exists new. repeat split; [exact HL | exact Hl | discriminate].
  - destruct H as (L & [HL _] & new & -> & Hl).
    exists new. repeat split; [exact HL | exact Hl | discriminate].
Qed.

Ltac free_side := first [ exact I | solve [tracked_side] ].

Lemma milestone_build_res L sch pairs res :
  hoare (tracked milestone L sch) (build_res fw pairs res) anything.
Proof.
  revert res. induction pairs as [| [target output] rest IH]; intros res;
    cbn [build_res].
  - apply hoare_ret.
  - hoare_walk free_side ltac:(apply IH).
Qed.

Lemma milestone_train_step L sch m opt dl dev warmup ml freq e i st :
  tracked milestone L sch st ->
  wp (train_step fw m opt dl dev warmup ml freq (HeaderEpoch e) i)
     (fun _ st' => tracked milestone (L ++ step_milestones warmup i) sch st')
     anything st.
Proof.
  intros HJ. unfold train_step, check_loss.
  repeat track_step HJ free_side ltac:(exact I) ltac:(fail).
  all: unfold step_milestones; tracked_side.
Qed.

Lemma milestone_evaluate L sch m dl dev st :
  tracked milestone L sch st ->
  wp (evaluate fw grad_off grad_restore m dl dev)
     (fun _ st' =>
        tracked milestone (L ++ [EvalBegin; Summarized; EvalEnd]) sch st')
     anything st.
Proof.
  intros HJ. unfold evaluate. apply wp_no_grad.
  restate HJ (tracked milestone (L ++ [EvalBegin]) sch) tracked_side.
  repeat track_step HJ free_side ltac:(exact I)
                    ltac:(apply milestone_build_res).
  tracked_side.
Qed.

(** The training loop: after [j] steps the milestones are those before
    the loop and those of the first [j] steps. *)
Ltac milestone_loop H :=
  lazymatch goal with
  | |- wp (for_each _ (train_step _ _ _ _ _ ?W _ _ _)) _ _ _ =>
      lazymatch type of H with
      | tracked _ ?L ?sch _ =>
          eapply (wp_for_each_seq
                    (fun j st' =>
                       tracked milestone
                         (L ++ flat_map (step_milestones W) (seq 0 j)) sch st'));
          [ cbn [seq flat_map]; rewrite app_nil_r; exact H
          | let HJ' := fresh "HJ'" in
            let Hx := fresh "Hx" in
            intros ? ? HJ'; eapply wp_post; cycle 1;
            [ eapply milestone_train_step; exact HJ'
            | cbv beta; intros ? ? Hx;
              rewrite flat_map_seq_S, app_assoc; exact Hx ]
          | cbn [Nat.add]; clear H; intros ? H ]
      end
  end.

(** Symbolic execution up to the write of the metric. *)
Ltac not_metric :=
  lazymatch goal with
  | |- wp (modify_state (set_eval_mAP _)) _ _ _ => fail
  | |- wp (match _ with [] => _ | _ :: _ => _ end) _ _ _ => fail
  | _ => idtac
  end.

Lemma milestone_train_one_epoch tdl edl base l0 c0 st :
  tracked milestone base l0 st ->
  config (self st) = c0 ->
  wp (train_one_epoch fw grad_off grad_restore tdl edl)
     (fun _ st' =>
        exists warmup sch stats mAP,
          l0 = Some sch /\
          project milestone st'
          = base ++ epoch_milestones (Z.to_nat (dl_len tdl)) warmup sch stats
                                     mAP (target_mAP c0) /\
          hd_error stats = Some mAP /\
          eval_mAP (ts st') = mAP)
     anything st.
Proof.
  intros HJ Hc.
  unfold train_one_epoch, train_batches.
  repeat track_step HJ free_side ltac:(exact I) ltac:(fail).
  milestone_loop HJ.
  repeat track_step HJ free_side ltac:(exact I) ltac:(fail).
  eapply wp_post; cycle 1; [eapply milestone_evaluate; exact HJ |].
  cbv beta. clear HJ. intros ? ? HJ.
  unfold conclude_epoch.
  repeat (not_metric; track_step HJ free_side ltac:(exact I) ltac:(fail)).
  wp_walk; try exact I.
  all: cbn [milestone].
  all: simpl_state; unfold tracked in *;
    repeat match goal with H : _ /\ _ |- _ => destruct H end.
  all: match goal with
       | Hs : lr_scheduler (self ?s) = Some ?sch,
         Hl : lr_scheduler (self ?s) = ?l,
         Em : ?stats = ?mAP :: _,
         Hp : context [step_milestones ?W] |- _ =>
           exists W, sch, stats, mAP;
           split; [congruence |];
           split; [| split; [rewrite Em; reflexivity | reflexivity]];
           project_simpl; rewrite Hp; unfold epoch_milestones;
           rewrite Em; subst c0
       end.
  all: match goal with H : float_ge _ _ = _ |- _ => rewrite H end.
  all: cbn [milestone]; rewrite <- ?app_assoc; cbn [app]; reflexivity.
Qed.

(** C4.  A call of [train_one_epoch] that returns went through these
    milestones, in this order and no others: for every mini-batch of the
    loader in turn, the batch, its backward pass and the step of the
    warmup scheduler if there is one; then the step of
    [self.lr_scheduler]; then exactly one evaluation, which summarised its
    statistics; then the read of the evaluator's bbox statistics; then, if
    the metric meets the target, the announcement of convergence.  The
    first entry of the statistics read is what [state.eval_mAP] holds when
    the call returns, and it is the value convergence was decided on. *)
Theorem evaluation_once_after_training (tdl edl : DataLoader) (st : State) :
  let r := train_one_epoch fw grad_off grad_restore tdl edl st in
  returned (fst r) = true ->
  exists warmup sch stats mAP,
    lr_scheduler (self st) = Some sch /\
    project milestone (snd r)
    = project milestone st
      ++ epoch_milestones (Z.to_nat (dl_len tdl)) warmup sch stats mAP
                          (target_mAP (config (self st))) /\
    hd_error stats = Some mAP /\
    eval_mAP (ts (snd r)) = mAP.
Proof.
  intros r Hret.
  pose proof (milestone_train_one_epoch tdl edl (project milestone st)
                (lr_scheduler (self st)) (config (self st)) st
                (conj eq_refl eq_refl) eq_refl) as H.
  unfold wp in H. fold r in H.
  destruct r as [[[] | e | c] st']; try discriminate Hret.
  exact H.
Qed.

(* ================================================================== *)
(** * Construction and initialisation *)
(* ================================================================== *)

Lemma init_returns st :
  wp (init fw)
     (fun _ st' =>
        exists dev m0 moved m1 m2 m3 opt sch,
          trace st' = trace st
                      ++ init_calls (self st) dev m0 moved m1 m2 m3 opt sch /\
          self st' = set_lr_scheduler sch
                       (set_optimizer opt (set_model m3 (self st))) /\
          ts st' = ts st)
     anything st.
Proof.
  unfold init.
  repeat (wp_step; simpl_state); try exact I; try discriminate.
  repeat match goal with
         | E : Some _ = Some _ |- _ => injection E as <-
         end.
  cbn [resp] in *.
  repeat match goal with u : unit |- _ => destruct u end.
  do 8 eexists. split; [| split; reflexivity].
  unfold init_calls, answered. rewrite <- !app_assoc. cbn [app]. reflexivity.
Qed.

(** X1.  An [init] that returns made exactly ten calls, in this order:
    [torch.set_num_threads(1)], [torch.device(config.device)], the
    progress message, [create_model()], [model.to(self.device)] (whose
    result is dropped), the adapter's [convert_model], [model_to_fp16] and
    [model_to_ddp] (each applied to what the one before returned),
    [create_optimizer] on the final model and [create_scheduler] on that
    optimizer.  It leaves the final model, the optimizer and the scheduler
    in [self], and changes nothing else of the trainer or of the training
    state. *)
Theorem init_builds_in_order (st : State) :
  let r := init fw st in
  returned (fst r) = true ->
  exists dev m0 moved m1 m2 m3 opt sch,
    trace (snd r) = trace st
                    ++ init_calls (self st) dev m0 moved m1 m2 m3 opt sch /\
    self (snd r) = set_lr_scheduler sch
                     (set_optimizer opt (set_model m3 (self st))) /\
    ts (snd r) = ts st.
Proof.
  intros r Hret.
  pose proof (init_returns st) as H.
  unfold wp in H. fold r in H.
  destruct r as [[[] | e | c] st']; try discriminate Hret.
  exact H.
Qed.

Lemma hoare_attr_there A (f : Trainer -> option A) I Qa :
  (forall st, I st -> f (self st) <> None) ->
  hoare I (attr f) Qa.
Proof.
  intros H st HI. unfold wp, attr.
  specialize (H st HI). destruct (f (self st)); [exact HI | contradiction].
Qed.

Ltac ready_side :=
  unfold ready, no_attribute_error in *; intros; simpl_state;
  first [ tauto | intuition discriminate ].

(** A walk in which no attribute is missing. *)
Ltac ready_walk extra :=
  repeat first
    [ lazymatch goal with
      | |- hoare _ (attr _) _ => apply hoare_attr_there; ready_side
      end
    | hoare_step ready_side extra ];
  cbv beta zeta.

Lemma ready_build_res pairs res :
  hoare ready (build_res fw pairs res)
        (fun ab st => ready st /\ no_attribute_error ab).
Proof.
  revert res. induction pairs as [| [target output] rest IH]; intros res;
    cbn [build_res].
  - apply hoare_ret.
  - ready_walk ltac:(apply IH).
Qed.

Lemma ready_train_one_epoch tdl edl :
  hoare ready (train_one_epoch fw grad_off grad_restore tdl edl)
        (fun ab st => ready st /\ no_attribute_error ab).
Proof. ready_walk ltac:(apply ready_build_res). Qed.

Lemma ready_later st st' :
  later fw grad_off grad_restore st st' -> ready st -> ready st'.
Proof.
  induction 1 as [st | st tdl edl st' _ IH | st e st' _ IH]; intros Hr.
  - exact Hr.
  - apply IH. pose proof (ready_train_one_epoch tdl edl st Hr) as H.
    unfold wp in H.
    destruct (train_one_epoch fw grad_off grad_restore tdl edl st)
      as [[[] | x | c] s]; cbn [snd]; tauto.
  - apply IH. exact Hr.
Qed.

(** X2.  Once [init] has returned, no call of [train_one_epoch] stops on a
    missing attribute: not the first one, and none after any number of
    epochs, however those ended and wherever the epoch counter was moved
    between them. *)
Theorem no_missing_attribute_after_init (tdl edl : DataLoader)
    (st st' : State) :
  returned (fst (init fw st)) = true ->
  later fw grad_off grad_restore (snd (init fw st)) st' ->
  missing_attribute
    (fst (train_one_epoch fw grad_off grad_restore tdl edl st')) = false.
Proof.
  intros Hret Hl.
  assert (Hr : ready (snd (init fw st))).
  { pose proof (init_returns st) as H. unfold wp in H.
    destruct (init fw st) as [[[] | x | c] s]; try discriminate Hret.
    destruct H as (? & ? & ? & ? & ? & ? & ? & ? & _ & Hs & _).
    unfold ready. cbn [snd]. rewrite Hs. simpl_state.
    repeat split; discriminate. }
  pose proof (ready_train_one_epoch tdl edl st' (ready_later _ _ Hl Hr)) as H.
  unfold wp in H.
  destruct (train_one_epoch fw grad_off grad_restore tdl edl st')
    as [[[] | x | c] s]; cbn [fst missing_attribute]; try reflexivity.
  destruct H as [_ H]. unfold no_attribute_error in H.
  destruct x; try reflexivity. contradiction.
Qed.

Lemma unready_train_one_epoch tdl edl st :
  model (self st) = None ->
  train_one_epoch fw grad_off grad_restore tdl edl st
  = (Raised AttributeError, log (EvRaise AttributeError) st).
Proof.
  intros H. unfold train_one_epoch, train_batches, bind, attr.
  rewrite H. reflexivity.
Qed.

Lemma unready_later st st' :
  later fw grad_off grad_restore st st' ->
  model (self st) = None -> model (self st') = None.
Proof.
  induction 1 as [st | st tdl edl st' _ IH | st e st' _ IH]; intros Hm.
  - exact Hm.
  - apply IH. rewrite (unready_train_one_epoch tdl edl st Hm). exact Hm.
  - apply IH. exact Hm.
Qed.

(** X3.  On a trainer that was constructed but not initialised, every call
    of [train_one_epoch] raises [AttributeError] on its first line: the
    framework is not called and nothing but the raise is recorded.  This
    stays so however often the call is repeated. *)
Theorem train_before_init_raises (driver adapter evaluator device : Obj)
    (training_state : TrainingState) (config : Config) (w : World)
    (tdl edl : DataLoader) (st : State) :
  later fw grad_off grad_restore
        (Trainer__init__ driver adapter evaluator training_state device
                         config w) st ->
  train_one_epoch fw grad_off grad_restore tdl edl st
  = (Raised AttributeError, log (EvRaise AttributeError) st).
Proof.
  intros Hl. apply unready_train_one_epoch.
  exact (unready_later _ _ Hl eq_refl).
Qed.

(* ================================================================== *)
(** * What the evaluation touches *)
(* ================================================================== *)

Ltac apart_side :=
  unfold kept_raising, kept, trained in *; intros; project_simpl;
  simpl_state; cbn [training_call app]; rewrite ?app_nil_r;
  first [ tauto | intuition congruence ].

Lemma apart_build_res L y pairs res :
  hoare (kept training_call L trained y) (build_res fw pairs res)
        (kept_raising training_call L trained y).
Proof.
  revert res. induction pairs as [| [target output] rest IH]; intros res;
    cbn [build_res].
  - apply hoare_ret.
  - hoare_walk apart_side ltac:(apply IH).
Qed.

Lemma apart_evaluate L y m dl dev :
  hoare (kept training_call L trained y)
        (evaluate fw grad_off grad_restore m dl dev)
        (kept_raising training_call L trained y).
Proof. hoare_walk apart_side ltac:(apply apart_build_res). Qed.

(** X4.  [evaluate] does not train: however it ends, the training state
    and the attributes [model], [optimizer] and [lr_scheduler] are as they
    were, none of the training calls was made (sampler epoch, train mode,
    forward pass in train mode, backward pass, scheduler creation or
    step), and the process did not exit. *)
Theorem evaluate_does_not_train (m : Obj) (dl : DataLoader) (dev : Obj)
    (st : State) :
  let r := evaluate fw grad_off grad_restore m dl dev st in
  trained (snd r) = trained st /\
  project training_call (snd r) = project training_call st /\
  exits (fst r) = false.
Proof.
  intros r.
  pose proof (apart_evaluate (project training_call st) (trained st) m dl dev
                st (conj eq_refl eq_refl)) as H.
  unfold wp in H. fold r in H.
  destruct r as [[ev | e | c] st']; cbn [fst snd exits].
  - destruct H as [Hp Hg]. auto.
  - destruct H as [[Hp Hg] _]. auto.
  - destruct H as [_ []].
Qed.

(* ================================================================== *)
(** * The conduct of an epoch *)
(* ================================================================== *)

(** Steps that keep the observation and add nothing to the projection. *)
Ltac kept_side :=
  unfold kept, in_use, adapter_in_use in *; intros; project_simpl; simpl_state; cbn;
  rewrite ?app_nil_r;
  repeat match goal with H : _ /\ _ |- _ => destruct H end;
  first
    [ exact I
    | split;
      [ repeat match goal with
               | H : project _ _ = _ |- _ => rewrite H; clear H
               end;
        rewrite <- ?app_assoc; cbn [app]; reflexivity
      | congruence ]
    | congruence
    | auto ].

Ltac keep_call H leaf :=
  lazymatch goal with
  | |- wp (call _ ?o) _ _ _ =>
      let a := fresh "a" in
      let w := fresh "w" in
      call_as a w; [| solve [leaf]];
      lazymatch type of H with
      | kept ?f ?L ?g ?y _ =>
          let evs := eval cbn in (f (EvCall o) ++ f (EvReturn o a)) in
          lazymatch evs with
          | [] => restate H (kept f L g y) kept_side
          | _ => restate H (kept f (L ++ evs) g y) kept_side
          end
      end
  end.

Ltac keep_step H side leaf extra :=
  lazymatch goal with
  | |- wp (bind _ _) _ _ _ => apply wp_bind
  | |- wp (ret _) _ _ _ => apply wp_ret
  | |- wp get_self _ _ _ => apply wp_get_self
  | |- wp get_state _ _ _ => apply wp_get_state
  | |- wp (attr ?f) _ _ _ =>
      apply wp_attr;
      lazymatch goal with
      | |- match ?x with _ => _ end =>
          let E := fresh "Eattr" in destruct x eqn:E; [| solve [leaf]]
      end
  | |- wp (call _ _) _ _ _ => keep_call H leaf
  | |- wp (raise _) _ _ _ => apply wp_raise; solve [leaf]
  | |- wp (sys_exit _) _ _ _ => apply wp_sys_exit; solve [leaf]
  | |- wp (evaluate _ _ _ _ _ _) _ _ _ => fail
  | |- wp (for_each _ (evaluate_step _ _ _ _ _ _ _)) _ _ _ => fail
  | |- wp (modify_self (set_evaluator _)) _ _ _ => fail
  | |- wp (modify_self _) _ _ _ => frame H side extra
  | |- wp (modify_state _) _ _ _ => frame H side extra
  | |- wp (print _) _ _ _ => frame H side extra
  | |- wp (for_each _ _) _ _ _ => frame H side extra
  | |- wp (mapM _ _) _ _ _ => frame H side extra
  | |- wp (build_res _ _ _) _ _ _ => frame H side extra
  | |- wp (if ?b then _ else _) _ _ _ =>
      first [ frame H side extra
            | let E := fresh "Eif" in destruct b eqn:E ]
  | |- wp (match ?x with _ => _ end) _ _ _ =>
      first [ frame H side extra
            | let E := fresh "Ematch" in destruct x eqn:E ]
  | |- wp ?m _ _ _ => let h := head_of m in unfold h
  end; cbv beta zeta.

Ltac easy_side := first [ exact I | solve [kept_side] ].

(** The end of a walk: what was kept, from what is known of the states
    on the way. *)
Ltac kept_done :=
  unfold kept, in_use in *; project_simpl; simpl_state;
  cbn [conduct app]; rewrite ?app_nil_r;
  repeat match goal with H : _ /\ _ |- _ => destruct H end;
  repeat match goal with
         | H : (_, _) = (_, _) |- _ => injection H as ? ?
         end;
  repeat match goal with
         | H : evaluator (self _) = _ |- _ => try rewrite H in *; clear H
         | H : model (self _) = _ |- _ => try rewrite H in *; clear H
         end;
  split;
  [ repeat match goal with
           | H : project _ _ = _ |- _ => rewrite H; clear H
           end;
    rewrite <- ?app_assoc; cbn [app]; reflexivity
  | reflexivity ].

Lemma conduct_build_res L y pairs res :
  hoare (kept conduct L in_use y) (build_res fw pairs res) anything.
Proof.
  revert res. induction pairs as [| [target output] rest IH]; intros res;
    cbn [build_res].
  - apply hoare_ret.
  - hoare_walk easy_side ltac:(apply IH).
Qed.

Lemma conduct_evaluate_step L mo ev m dl dev cpu ml freq i st :
  kept conduct L in_use (mo, ev) st ->
  wp (evaluate_step fw m dl dev cpu ml freq i)
     (fun _ st' => kept conduct (L ++ [Update ev]) in_use (mo, ev) st')
     anything st.
Proof.
  intros HJ. unfold evaluate_step.
  repeat keep_step HJ easy_side ltac:(exact I)
                   ltac:(apply conduct_build_res).
  call_as done w'; [| exact I]. kept_done.
Qed.

(** The evaluation loop: after [j] steps the evaluator was updated [j]
    times. *)
Ltac conduct_loop H :=
  lazymatch goal with
  | |- wp (for_each _ (evaluate_step _ _ _ _ _ _ _)) _ _ _ =>
      lazymatch type of H with
      | kept _ ?L _ (?mo, ?ev) _ =>
          eapply (wp_for_each_seq
                    (fun j st' =>
                       kept conduct (L ++ repeat (Update ev) j) in_use
                            (mo, ev) st'));
          [ cbn [repeat]; rewrite app_nil_r; exact H
          | let HJ' := fresh "HJ'" in
            let Hx := fresh "Hx" in
            intros ? ? HJ'; eapply wp_post; cycle 1;
            [ eapply conduct_evaluate_step; exact HJ'
            | cbv beta; intros ? ? Hx;
              cbn [repeat]; rewrite repeat_cons, app_assoc; exact Hx ]
          | cbn [Nat.add]; clear H; intros ? H ]
      end
  end.

Lemma conduct_evaluate L mo ev0 m dl dev st :
  kept conduct L in_use (mo, ev0) st ->
  wp (evaluate fw grad_off grad_restore m dl dev)
     (fun ev st' =>
        exists coco,
          kept conduct
               (L ++ evaluation_conduct m (dl_dataset dl) coco ev
                                        (Z.to_nat (dl_len dl)))
               in_use (mo, ev) st')
     anything st.
Proof.
  intros HJ. unfold evaluate. apply wp_no_grad.
  restate HJ (kept conduct L in_use (mo, ev0)) kept_side.
  repeat keep_step HJ easy_side ltac:(exact I) ltac:(fail).
  apply wp_modify_self.
  match goal with
  | |- wp _ _ _ (with_self (set_evaluator ?ev _) _) =>
      lazymatch type of HJ with
      | kept ?f ?L' ?g _ _ => restate HJ (kept f L' g (mo, ev)) kept_side
      end
  end.
  repeat keep_step HJ easy_side ltac:(exact I) ltac:(fail).
  conduct_loop HJ.
  repeat keep_step HJ easy_side ltac:(exact I) ltac:(fail).
  match goal with
  | H : kept conduct (_ ++ [Coco _ ?c]) _ _ _ |- _ => exists c
  end.
  unfold evaluation_conduct. kept_done.
Qed.

Lemma conduct_train_one_epoch tdl edl L mo ev0 st :
  kept conduct L in_use (mo, ev0) st ->
  wp (train_one_epoch fw grad_off grad_restore tdl edl)
     (fun _ st' =>
        exists m coco ev,
          mo = Some m /\
          kept conduct
               (L ++ epoch_conduct (config (self st)) (epoch (ts st)) m
                                   tdl edl coco ev)
               in_use (Some m, ev) st')
     anything st.
Proof.
  intros HJ.
  unfold train_one_epoch, train_batches.
  repeat keep_step HJ easy_side ltac:(exact I) ltac:(fail).
  all: eapply wp_post; cycle 1; [eapply conduct_evaluate; exact HJ |].
  all: cbv beta; rename HJ into HJ_before; intros ? ? [coco HJ].
  all: unfold conclude_epoch.
  all: repeat keep_step HJ easy_side ltac:(exact I) ltac:(fail).
  all: unfold kept, in_use in *;
    repeat match goal with H : _ /\ _ |- _ => destruct H end.
  all: match goal with
       | Hc : project conduct _
              = (_ ++ [TrainMode ?m]) ++ evaluation_conduct ?m2 _ ?c ?ev _,
         Hs : project conduct _ = _ ++ [ReadStats ?ev2] |- _ =>
           let E1 := fresh "E" in
           let E2 := fresh "E" in
           assert (E1 : m2 = m) by congruence;
           assert (E2 : ev2 = ev) by congruence;
           exists m, c, ev;
           split; [congruence | split; [| congruence]];
           unfold epoch_conduct;
           match goal with
           | H : project conduct ?s = _ |- project conduct ?s = _ =>
               rewrite H
           end;
           rewrite ?E1, ?E2;
           match goal with
           | H : distributed _ = _ |- _ => rewrite H
           end
       end.
  all: rewrite <- ?app_assoc; cbn [app]; reflexivity.
Qed.

(** X5.  An [evaluate] that returns obtained the COCO API of the loader's
    dataset, built a new evaluator on it, put the model in eval mode,
    updated that evaluator once per batch of the loader, and then
    synchronised, accumulated and summarised it, in this order.  The new
    evaluator is what the call returns and what [self.evaluator] holds
    afterwards; the evaluator the trainer held before is not used. *)
Theorem evaluate_builds_its_evaluator (m : Obj) (dl : DataLoader) (dev : Obj)
    (st : State) (ev : Obj) :
  let r := evaluate fw grad_off grad_restore m dl dev st in
  fst r = Returned ev ->
  exists coco,
    project conduct (snd r)
    = project conduct st
      ++ evaluation_conduct m (dl_dataset dl) coco ev (Z.to_nat (dl_len dl)) /\
    evaluator (self (snd r)) = ev.
Proof.
  intros r Hret.
  pose proof (conduct_evaluate (project conduct st) (model (self st))
                (evaluator (self st)) m dl dev st (conj eq_refl eq_refl)) as H.
  unfold wp in H. fold r in H.
  destruct r as [[ev' | e | c] st']; try discriminate Hret.
  injection Hret as ->. destruct H as (coco & Hp & Hg).
  exists coco. split; [exact Hp |].
  unfold in_use in Hg. cbn [snd]. congruence.
Qed.

(** X6.  The conduct of a [train_one_epoch] that returns, in order: the
    sampler of the training loader is given the epoch if and only if
    [config.distributed]; the model is put in train mode; after the
    training it is put in eval mode by the one evaluation, which builds
    its evaluator on the dataset of the evaluation loader and updates it
    once per batch; the bbox statistics are then read from that same
    evaluator.  The model is not put back in train mode before the call
    returns, and [self] holds the same model and the new evaluator. *)
Theorem epoch_is_conducted_in_order (tdl edl : DataLoader) (st : State) :
  let r := train_one_epoch fw grad_off grad_restore tdl edl st in
  returned (fst r) = true ->
  exists m coco ev,
    model (self st) = Some m /\
    project conduct (snd r)
    = project conduct st
      ++ epoch_conduct (config (self st)) (epoch (ts st)) m tdl edl coco ev /\
    model (self (snd r)) = Some m /\
    evaluator (self (snd r)) = ev.
Proof.
  intros r Hret.
  pose proof (conduct_train_one_epoch tdl edl (project conduct st)
                (model (self st)) (evaluator (self st)) st
                (conj eq_refl eq_refl)) as H.
  unfold wp in H. fold r in H.
  destruct r as [[[] | e | c] st']; try discriminate Hret.
  destruct H as (m & coco & ev & Hm & Hp & Hg).
  exists m, coco, ev. unfold in_use in Hg. cbn [snd].
  repeat split; congruence.
Qed.

(* ================================================================== *)
(** * The dictionary of results *)
(* ================================================================== *)

Lemma res_get_set key (v : @Dict Obj) res k :
  res_get k (res_set key v res) = if key =? k then Some v else res_get k res.
Proof.
  induction res as [| [k0 v0] res IH]; cbn [res_set res_get].
  - reflexivity.
  - destruct (k0 =? key) eqn:E0; cbn [res_get].
    + apply Z.eqb_eq in E0. subst k0.
      destruct (key =? k); reflexivity.
    + destruct (k0 =? k) eqn:E1.
      * apply Z.eqb_eq in E1. subst k0.
        rewrite Z.eqb_sym, E0. reflexivity.
      * exact IH.
Qed.

Lemma res_set_keys key (v : @Dict Obj) res k :
  In k (map fst (res_set key v res)) <-> k = key \/ In k (map fst res).
Proof.
  induction res as [| [k0 v0] res IH]; cbn [res_set map fst In].
  - intuition.
  - destruct (k0 =? key) eqn:E0; cbn [map fst In].
    + apply Z.eqb_eq in E0. subst k0. intuition.
    + rewrite IH. intuition.
Qed.

Lemma res_set_NoDup key (v : @Dict Obj) res :
  NoDup (map fst res) -> NoDup (map fst (res_set key v res)).
Proof.
  induction res as [| [k0 v0] res IH]; cbn [res_set map fst]; intros Hn.
  - constructor; [intros [] | constructor].
  - inversion Hn as [| ? ? Hin Hn']; subst.
    destruct (k0 =? key) eqn:E0; cbn [map fst].
    + constructor; assumption.
    + constructor; [| exact (IH Hn')].
      rewrite res_set_keys. intros [-> | H]; [| contradiction].
      rewrite Z.eqb_refl in E0. discriminate.
Qed.

(** What [build_res] does from the dictionary [acc]. *)
Lemma items_build_res pairs :
  forall acc st,
  wp (build_res fw pairs acc)
     (fun res st' =>
        exists ids,
          project item_read st' = project item_read st ++ ids /\
          List.length ids = List.length pairs /\
          forallb has_image_id pairs = true /\
          (NoDup (map fst acc) -> NoDup (map fst res)) /\
          forall k,
            res_get k res
            = match last_with k ids (map snd pairs) with
              | Some v => Some v
              | None => res_get k acc
              end)
     (stopped_on_key pairs) st.
Proof.
  induction pairs as [| [target output] rest IH]; intros acc st;
    cbn [build_res].
  - apply wp_ret. exists []. rewrite app_nil_r. cbn. auto.
  - unfold stopped_on_key.
    cbn [forallb List.length map snd].
    assert (Hh : has_image_id (target, output)
                 = match dict_get "image_id" target with
                   | Some _ => true
                   | None => false
                   end)
      by reflexivity.
    rewrite Hh. clear Hh.
    destruct (dict_get "image_id" target) as [x |] eqn:Ex.
    + apply wp_bind. call_as k w; [| exact I].
      eapply wp_conseq; [apply IH | |]; cbv beta.
      * intros res st' (ids & Hp & Hl & Hf & Hn & Hg).
        exists (k :: ids). repeat split.
        -- rewrite Hp. project_simpl. cbn [item_read].
           rewrite app_nil_r, <- app_assoc. reflexivity.
        -- cbn [List.length]. now rewrite Hl.
        -- exact Hf.
        -- intros Ha. apply Hn, res_set_NoDup, Ha.
        -- intros key. rewrite Hg. cbn [last_with].
           destruct (last_with key ids (map snd rest)); [reflexivity |].
           rewrite res_get_set. destruct (k =? key); reflexivity.
      * intros [[] | c] st'; cbn [andb]; auto.
    + apply wp_raise. reflexivity.
Qed.

(** X7.  The dictionary [res] of an evaluation step, when the
    comprehension over [zip(targets, outputs)] returns: [.item()] was read
    once per pair, in order; no key occurs twice in [res]; and [res] maps
    an integer to the output zipped with the last target whose image id is
    that integer, and has no entry for any other integer. *)
Theorem res_maps_ids_to_last_outputs (pairs : list (Dict * Dict))
    (st : State) (res : list (Z * Dict)) :
  let r := build_res fw pairs [] st in
  fst r = Returned res ->
  exists ids,
    project item_read (snd r) = project item_read st ++ ids /\
    List.length ids = List.length pairs /\
    NoDup (map fst res) /\
    forall k, res_get k res = last_with k ids (map snd pairs).
Proof.
  intros r Hret.
  pose proof (items_build_res pairs [] st) as H.
  unfold wp in H. fold r in H.
  destruct r as [[res' | e | c] st']; try discriminate Hret.
  injection Hret as ->.
  destruct H as (ids & Hp & Hl & _ & Hn & Hg).
  exists ids. repeat split; [exact Hp | exact Hl | apply Hn; constructor |].
  intros k. rewrite Hg. cbn [res_get].
  destruct (last_with k ids (map snd pairs)); reflexivity.
Qed.

(** X8.  The comprehension returns only if every zipped target has an
    ["image_id"]; it raises [KeyError] only if one has none; otherwise it
    stops on an exception of the framework.  It never exits and raises no
    other exception of its own. *)
Theorem res_needs_every_image_id (pairs : list (Dict * Dict))
    (acc : list (Z * Dict)) (st : State) :
  match fst (build_res fw pairs acc st) with
  | Returned _ => forallb has_image_id pairs = true
  | Raised KeyError => forallb has_image_id pairs = false
  | Raised (FrameworkError _) => True
  | _ => False
  end.
Proof.
  pose proof (items_build_res pairs acc st) as H.
  unfold wp in H.
  destruct (build_res fw pairs acc st) as [[res | e | c] st']; cbn [fst].
  - destruct H as (ids & _ & _ & Hf & _). exact Hf.
  - exact H.
  - exact H.
Qed.

(* ================================================================== *)
(** * What an exit leaves behind *)
(* ================================================================== *)

Ltac held_side :=
  unfold held, held_at_exit, whatever, settled, recorded in *; intros;
  simpl_state;
  first
    [ exact I
    | assumption
    | congruence
    | match goal with
      | |- match ?ab with _ => _ end =>
          destruct ab; first [ exact I | assumption | congruence ]
      end ].

(** A walk over the pieces of a sequence, each of which keeps what [H]
    says of the state. *)
Ltac piecewise H side extra :=
  repeat lazymatch goal with
         | |- wp (bind _ _) _ _ _ => apply wp_bind
         | |- wp _ _ _ _ => frame H side extra
         end.

Lemma whatever_build_res Y (g : State -> Y) y pairs res :
  hoare whatever (build_res fw pairs res) (held_at_exit g y).
Proof.
  revert res. induction pairs as [| [target output] rest IH]; intros res;
    cbn [build_res].
  - apply hoare_ret.
  - hoare_walk held_side ltac:(apply IH).
Qed.

Lemma exit_train_one_epoch tdl edl y st :
  held settled y st ->
  wp (train_one_epoch fw grad_off grad_restore tdl edl)
     (fun _ _ => True) (held_at_exit settled y) st.
Proof.
  intros H. unfold train_one_epoch, train_batches.
  piecewise H held_side ltac:(fail).
  match goal with
  | |- wp _ _ _ ?s => assert (Hw : whatever s) by exact I
  end.
  piecewise Hw held_side ltac:(apply whatever_build_res).
  exact I.
Qed.

(** X9.  When [train_one_epoch] ends in an exit of the process, the epoch
    is not recorded: the sample count, [no_eval_time], the metric, the
    epoch counter and the two flags are as they were before the call, and
    so is every attribute of the trainer (no new evaluator).  Only
    [pure_compute_time] may differ, by the batches that completed. *)
Theorem exit_leaves_epoch_unrecorded (tdl edl : DataLoader) (st : State) :
  let r := train_one_epoch fw grad_off grad_restore tdl edl st in
  exits (fst r) = true ->
  self (snd r) = self st /\ recorded (ts (snd r)) = recorded (ts st).
Proof.
  intros r Hex.
  pose proof (exit_train_one_epoch tdl edl (settled st) st eq_refl) as H.
  unfold wp in H. fold r in H.
  destruct r as [[[] | e | c] st']; try discriminate Hex.
  cbn [held_at_exit] in H. unfold settled in H. cbn [snd].
  split; congruence.
Qed.

(* ================================================================== *)
(** * Empty statistics *)
(* ================================================================== *)






(* ================================================================== *)
(** * The two timers *)
(* ================================================================== *)
















(* ================================================================== *)
(** * The flow of the losses through a training step *)
(* ================================================================== *)

(** Symbolic execution up to the finiteness check. *)
Ltac not_check :=
  lazymatch goal with
  | |- wp (check_loss _ _) _ _ _ => fail
  | _ => idtac
  end.

Lemma flow_train_step L ad m opt dl dev warmup ml freq h i st :
  kept flow L adapter_in_use ad st ->
  wp (train_step fw m opt dl dev warmup ml freq h i)
     (fun _ st' =>
        exists d l dr lr v rate,
          kept flow (L ++ step_flow m ad opt d l dr lr v rate)
               adapter_in_use ad st' /\
          isfinite v = true)
     anything st.
Proof.
  intros HJ. unfold train_step.
  repeat (not_check; keep_step HJ easy_side ltac:(exact I) ltac:(fail)).
  unfold check_loss.
  lazymatch goal with
  | |- wp (if negb (isfinite ?v) then _ else _) _ _ _ =>
      destruct (isfinite v) eqn:Efin; cbn [negb]
  end.
  2: { wp_walk; exact I. }
  apply wp_ret.
  repeat keep_step HJ easy_side ltac:(exact I) ltac:(fail).
  lazymatch type of HJ with
  | kept flow
      (((((((((_ ++ [Forward _ ?d]) ++ [Summed _ ?l]) ++ [Reduction _ ?dr])
            ++ [Summed _ ?lr]) ++ [Scalar _ ?v]) ++ _) ++ _)
        ++ [LrOf _ ?rate]) ++ _) _ _ _ =>
      exists d, l, dr, lr, v, rate
  end.
  split; [| assumption].
  unfold kept, adapter_in_use, step_flow in *.
  repeat match goal with H : _ /\ _ |- _ => destruct H end.
  split; [| assumption].
  match goal with
  | H : project flow ?s = _ |- project flow ?s = _ => rewrite H
  end.
  match goal with
  | H : adapter (self ?s) = _ |- context [adapter (self ?s)] => rewrite H
  end.
  rewrite <- ?app_assoc. reflexivity.
Qed.

(** X12.  A training step that returns: the backward pass is run on the
    sum of the loss dictionary the model returned on this rank, with the
    trainer's adapter and the optimizer of the epoch; the number that was
    checked for finiteness, and was finite, is read from the sum of the
    dictionary reduced across ranks; the logger is given the reduced sum
    and the reduced dictionary, and the learning rate read from the same
    optimizer. *)
Theorem step_backpropagates_local_losses (m opt : Obj) (dl : DataLoader)
    (dev : Obj) (warmup : option Obj) (ml : Obj) (freq : Z) (h : Header)
    (i : nat) (st : State) :
  let r := train_step fw m opt dl dev warmup ml freq h i st in
  returned (fst r) = true ->
  exists d l dr lr v rate,
    project flow (snd r)
    = project flow st
      ++ step_flow m (adapter (self st)) opt d l dr lr v rate /\
    isfinite v = true.
Proof.
  intros r Hret.
  pose proof (flow_train_step (project flow st) (adapter (self st)) m opt dl
                dev warmup ml freq h i st (conj eq_refl eq_refl)) as H.
  unfold wp in H. fold r in H.
  destruct r as [[[] | e | c] st']; try discriminate Hret.
  destruct H as (d & l & dr & lr & v & rate & [Hp _] & Hv).
  exists d, l, dr, lr, v, rate. split; assumption.
Qed.

End Proofs.

(* ================================================================== *)
(** * The GPT-3 13B configuration *)
(* ================================================================== *)

(** C10.  The configured warmup is longer than the configured run:
    [warmup_steps] (188) is strictly greater than [max_steps] (100), so
    every step of the run, from 0 to [max_steps], comes before the end of
    the warmup, and a decay that starts after [warmup_steps] steps is
    never reached. *)
Theorem warmup_outlasts_run :
  Gpt3Config.max_steps < Gpt3Config.warmup_steps /\
  Gpt3Config.max_steps = 100 /\ Gpt3Config.warmup_steps = 188 /\
  forall s, 0 <= s <= Gpt3Config.max_steps -> s < Gpt3Config.warmup_steps.
Proof.
  unfold Gpt3Config.max_steps, Gpt3Config.warmup_steps.
  repeat split; intros; lia.
Qed.

(* ================================================================== *)
(** * Concrete runs *)
(* ================================================================== *)

(** An epoch that returns, on three mini-batches: its milestones are
    those of the theorem, with the warmup scheduler 36, the trainer's
    scheduler 7 and the metric 0.36. *)
Lemma evaluation_once_on_healthy_epoch :
  let r := Demo.epoch_run Demo.healthy 0 in
  exists warmup sch stats mAP,
    lr_scheduler (self (Demo.start 0)) = Some sch /\
    project milestone (snd r)
    = project milestone (Demo.start 0)
      ++ epoch_milestones 3 warmup sch stats mAP 0.35%float /\
    hd_error stats = Some mAP /\
    eval_mAP (ts (snd r)) = mAP.
Proof.
  apply (evaluation_once_after_training
           (Demo.framework Demo.healthy) (fun w => w) (fun w => w)
           Demo.train_dataloader Demo.eval_dataloader (Demo.start 0)).
  vm_compute. reflexivity.
Defined.

(** With a clock that ticks, an epoch over 12 images counts 12 samples
    and loses no time. *)
Lemma samples_and_time_on_healthy_epoch :
  let r := Demo.epoch_from Demo.healthy (fresh (Demo.start 0)) in
  num_trained_samples (ts (snd r)) = 0 + 12 /\
  (0 <= pure_compute_time (ts (snd r)))%Q /\
  (0 <= no_eval_time (ts (snd r)))%Q.
Proof.
  destruct (epoch_counts_samples_and_time
              (Demo.framework Demo.healthy) (fun w => w) (fun w => w)
              Demo.train_dataloader Demo.eval_dataloader (Demo.start 0))
    as [Hn Ht].
  - vm_compute. reflexivity.
  - split; [exact Hn |]. apply Ht. vm_compute. reflexivity.
Defined.

(** The clock is set back by an hour during the epoch: the call returns
    and [no_eval_time] has gone from 0 to -3593. *)
Lemma clock_set_back_loses_time :
  let r := Demo.epoch_run Demo.clock_set_back 0 in
  returned (fst r) = true /\
  (no_eval_time (ts (snd r)) < no_eval_time (ts (Demo.start 0)))%Q /\
  clock_steady (snd r) = false.
Proof. vm_compute. repeat split. Qed.

(** Epoch 26 of 26 with mAP 0.36 sets both flags; the caller then moves
    the counter back to 3 and the next epoch evaluates to mAP 0.2: both
    flags are still set. *)
Lemma flags_stay_set_on_weaker_epoch :
  eval_mAP (ts Demo.after_second) = 0.2%float /\
  converged (ts Demo.after_second) = true /\
  end_training (ts Demo.after_second) = true.
Proof.
  destruct (flags_are_one_way (Demo.framework Demo.healthy)
              (fun w => w) (fun w => w) Demo.after_first Demo.after_second)
    as [Hc He].
  - apply later_counter with (e := 3).
    exact (later_epoch _ _ _ _ Demo.train_dataloader Demo.eval_dataloader _
             (later_now _ _ _ _)).
  - split; [vm_compute; reflexivity |].
    split; [apply Hc | apply He]; vm_compute; reflexivity.
Defined.

(** The flags on concrete epochs: the target is met in epoch 0 of 26;
    it is missed; the last epoch ends the training. *)
Example flags_on_concrete_epochs :
  let flags r := (converged (ts (snd r)), end_training (ts (snd r))) in
  flags (Demo.epoch_run Demo.healthy 0) = (true, false) /\
  flags (Demo.epoch_run Demo.weak 0) = (false, false) /\
  flags (Demo.epoch_run Demo.weak 25) = (false, false) /\
  flags (Demo.epoch_run Demo.weak 26) = (false, true) /\
  flags (Demo.epoch_run Demo.diverging 26) = (false, false).
Proof. vm_compute. repeat split. Qed.

(** A NaN loss in the second batch: the call exits with status 1 after
    one backward pass, and the last three events are the two prints and
    the exit. *)
Example diverging_epoch_exits :
  let r := Demo.epoch_run Demo.diverging 0 in
  fst r = Exited 1 /\
  project milestone (snd r) = [Batch 0; Backward; Step 36%nat; Batch 1] /\
  match loss_watch (snd r) with
  | Unsound v (Some d) [EvPrint (PrLossStop v'); EvPrint (PrDict d'); EvExit 1] =>
      isfinite v = false /\ d' = d
  | _ => False
  end.
Proof. vm_compute. repeat split. Qed.

(** A fault in the reduction across ranks: the exception leaves
    [train_one_epoch], before any backward pass. *)
Example comm_fault_propagates :
  let r := Demo.epoch_run Demo.comm_fault 0 in
  fst r = Raised (FrameworkError "RuntimeError") /\
  project raised (snd r) = [FrameworkError "RuntimeError"] /\
  project milestone (snd r) = [Batch 0].
Proof. vm_compute. repeat split. Qed.

(** The scheduler events of epoch 0 and of epoch 1, on three batches:
    [min(1000, 3 - 1)] is 2. *)
Example schedules_of_concrete_epochs :
  project schedule (snd (Demo.epoch_run Demo.healthy 0))
  = [Created 6%nat 2 (1 / 1000)%float; Handle 36%nat;
     Stepped 36%nat; Stepped 36%nat; Stepped 36%nat; Stepped 7%nat] /\
  project schedule (snd (Demo.epoch_run Demo.healthy 1)) = [Stepped 7%nat].
Proof. vm_compute. repeat split. Qed.

(** A trainer as constructed is initialised: the ten calls, and the
    model 31, the optimizer 32 and the scheduler 33 in [self]. *)
Lemma init_on_constructed_trainer :
  let r := init (Demo.framework Demo.healthy) Demo.constructed in
  exists dev m0 moved m1 m2 m3 opt sch,
    trace (snd r)
    = trace Demo.constructed
      ++ init_calls (self Demo.constructed) dev m0 moved m1 m2 m3 opt sch /\
    self (snd r)
    = set_lr_scheduler sch
        (set_optimizer opt (set_model m3 (self Demo.constructed))) /\
    ts (snd r) = ts Demo.constructed.
Proof.
  apply (init_builds_in_order (Demo.framework Demo.healthy) Demo.constructed).
  vm_compute. reflexivity.
Defined.

(** After [init] and a first epoch, the second epoch finds its
    attributes. *)
Lemma second_epoch_finds_its_attributes :
  returned (fst (init (Demo.framework Demo.healthy) Demo.constructed)) = true /\
  missing_attribute
    (fst (Demo.epoch_from Demo.healthy Demo.after_initial_epoch)) = false.
Proof.
  split; [vm_compute; reflexivity |].
  apply (no_missing_attribute_after_init
           (Demo.framework Demo.healthy) (fun w => w) (fun w => w)
           Demo.train_dataloader Demo.eval_dataloader
           Demo.constructed Demo.after_initial_epoch).
  - vm_compute. reflexivity.
  - exact (later_epoch _ _ _ _ Demo.train_dataloader Demo.eval_dataloader _
             (later_now _ _ _ _)).
Defined.

(** Training on a trainer that was only constructed. *)
Lemma train_on_constructed_trainer_raises :
  Demo.epoch_from Demo.healthy Demo.constructed
  = (Raised AttributeError, log (EvRaise AttributeError) Demo.constructed).
Proof.
  apply (train_before_init_raises
           (Demo.framework Demo.healthy) (fun w => w) (fun w => w)
           1%nat 2%nat 4%nat 3%nat (Demo.state_at 0) Demo.cfg
           (Demo.mkWorld 0 0 0)
           Demo.train_dataloader Demo.eval_dataloader Demo.constructed).
  apply later_now.
Defined.

(** An evaluation of the model 5 on two batches: the evaluator 61 is
    built on the COCO API of the dataset 13 and updated twice. *)
Lemma evaluation_on_two_batches :
  let r := evaluate (Demo.framework Demo.healthy) (fun w => w) (fun w => w)
             5%nat Demo.eval_dataloader 3%nat (Demo.start 0) in
  exists coco,
    project conduct (snd r)
    = project conduct (Demo.start 0)
      ++ evaluation_conduct 5%nat 13%nat coco 61%nat 2 /\
    evaluator (self (snd r)) = 61%nat.
Proof.
  apply (evaluate_builds_its_evaluator
           (Demo.framework Demo.healthy) (fun w => w) (fun w => w)
           5%nat Demo.eval_dataloader 3%nat (Demo.start 0) 61%nat).
  vm_compute. reflexivity.
Defined.

(** The conduct of a distributed epoch 0 on the scripted framework. *)
Lemma conduct_of_healthy_epoch :
  let r := Demo.epoch_run Demo.healthy 0 in
  exists m coco ev,
    model (self (Demo.start 0)) = Some m /\
    project conduct (snd r)
    = project conduct (Demo.start 0)
      ++ epoch_conduct Demo.cfg 0 m Demo.train_dataloader
                       Demo.eval_dataloader coco ev /\
    model (self (snd r)) = Some m /\
    evaluator (self (snd r)) = ev.
Proof.
  apply (epoch_is_conducted_in_order
           (Demo.framework Demo.healthy) (fun w => w) (fun w => w)
           Demo.train_dataloader Demo.eval_dataloader (Demo.start 0)).
  vm_compute. reflexivity.
Defined.

(** Three pairs, the first and the last with image id 7: [res] has the
    keys 7 and 9, and 7 maps to the last output. *)
Lemma res_of_three_pairs :
  let r := build_res (Demo.framework Demo.healthy) Demo.zipped []
             (Demo.start 0) in
  fst r = Returned [(7, [("scores", 72%nat)]); (9, [("scores", 71%nat)])] /\
  exists ids,
    project item_read (snd r) = project item_read (Demo.start 0) ++ ids /\
    List.length ids = List.length Demo.zipped /\
    NoDup (map fst [(7, [("scores", 72%nat)]); (9, [("scores", 71%nat)])]) /\
    forall k,
      res_get k [(7, [("scores", 72%nat)]); (9, [("scores", 71%nat)])]
      = last_with k ids (map snd Demo.zipped).
Proof.
  split; [vm_compute; reflexivity |].
  apply (res_maps_ids_to_last_outputs
           (Demo.framework Demo.healthy) Demo.zipped (Demo.start 0)).
  vm_compute. reflexivity.
Defined.

(** The NaN loss of the second batch: the process exits, one batch is in
    [pure_compute_time], and nothing else of the epoch is recorded. *)
Lemma diverging_epoch_is_unrecorded :
  let r := Demo.epoch_run Demo.diverging 0 in
  (pure_compute_time (ts (snd r)) == 1)%Q /\
  self (snd r) = self (Demo.start 0) /\
  recorded (ts (snd r)) = recorded (ts (Demo.start 0)).
Proof.
  split; [vm_compute; reflexivity |].
  apply (exit_leaves_epoch_unrecorded
           (Demo.framework Demo.diverging) (fun w => w) (fun w => w)
           Demo.train_dataloader Demo.eval_dataloader (Demo.start 0)).
  vm_compute. reflexivity.
Defined.



(** One step of the scripted run: the backward pass takes the sum 52 of
    the losses, with the adapter 2 and the optimizer 6. *)
Lemma flow_of_first_step :
  let r := train_step (Demo.framework Demo.healthy) 5%nat 6%nat
             Demo.train_dataloader 3%nat None 34%nat 20 (HeaderEpoch 0) 0
             (Demo.start 0) in
  exists d l dr lr v rate,
    project flow (snd r)
    = project flow (Demo.start 0)
      ++ step_flow 5%nat (adapter (self (Demo.start 0))) 6%nat
                   d l dr lr v rate /\
    isfinite v = true.
Proof.
  apply (step_backpropagates_local_losses
           (Demo.framework Demo.healthy) 5%nat 6%nat Demo.train_dataloader
           3%nat None 34%nat 20 (HeaderEpoch 0) 0%nat (Demo.start 0)).
  vm_compute. reflexivity.
Defined.
